(** * Quiz parsing and scoring of SmartStudy-AI (src/app.py)

    Shallow embedding of [parse_quiz_for_display], [create_fallback_quiz_data]
    and the scoring part of [display_quiz_results]; then of the answer
    collection of [display_quiz_with_answers], the rest of
    [display_quiz_results], the learning history of [SmartStudyMemory]
    (src/memory.py), [extract_key_content] and [validate_file_upload]
    (src/utils.py), [_format_fallback_quiz] (src/chains.py) and
    [_clean_text] (src/llm_providers.py).

    Modelling choices:
    - Python [str] values are [String.string]; characters are ASCII, so
      [str.lower], [str.isspace] and [re.IGNORECASE] are their ASCII cases
      (whitespace in the sense of [str.isspace]: 9..13, 28..32).
    - The quiz dictionary is a record; its ["short_answer"] field, which the
      code sets to [""], a dict or a list, is an inductive type.
    - [st.session_state.quiz_answers] (a dict) is an association list read
      with the semantics of [dict.get].
    - Python floats in the percentage and in the keyword threshold are exact
      rationals [Q] (all values involved are small integers and their
      quotients). *)

From Stdlib Require Import Ascii String List Bool Arith Lia ZArith QArith.
From Stdlib Require Import Numbers.DecimalString.
From Stdlib Require Numbers.DecimalNat.
Import ListNotations.
Open Scope string_scope.
Open Scope nat_scope.

(* ------------------------------------------------------------------ *)
(** ** Python string primitives *)

Module Py.

(** [c.isspace()] on ASCII. *)
Definition is_space (c : ascii) : bool :=
  let n := nat_of_ascii c in
  ((9 <=? n) && (n <=? 13)) || ((28 <=? n) && (n <=? 32)).

Definition is_digit (c : ascii) : bool :=
  let n := nat_of_ascii c in (48 <=? n) && (n <=? 57).

Definition lower_char (c : ascii) : ascii :=
  let n := nat_of_ascii c in
  if (65 <=? n) && (n <=? 90) then ascii_of_nat (n + 32) else c.

Definition upper_char (c : ascii) : ascii :=
  let n := nat_of_ascii c in
  if (97 <=? n) && (n <=? 122) then ascii_of_nat (n - 32) else c.

(** [s.lower()] *)
Fixpoint lower (s : string) : string :=
  match s with
  | EmptyString => EmptyString
  | String c s' => String (lower_char c) (lower s')
  end.

(** [needle in hay] for two strings: substring test. *)
Fixpoint contains (needle hay : string) : bool :=
  prefix needle hay ||
  match hay with
  | EmptyString => false
  | String _ hay' => contains needle hay'
  end.

(** [s.split()]: maximal runs of non-whitespace characters.
    [split_go s] returns the word that starts at the head of [s]
    (possibly empty) and the words after it. *)
Fixpoint split_go (s : string) : string * list string :=
  match s with
  | EmptyString => (EmptyString, [])
  | String c s' =>
      let (w, ws) := split_go s' in
      if is_space c
      then (EmptyString, match w with EmptyString => ws | _ => w :: ws end)
      else (String c w, ws)
  end.

Definition split (s : string) : list string :=
  let (w, ws) := split_go s in
  match w with EmptyString => ws | _ => w :: ws end.

(** [s.strip()] *)
Fixpoint lstrip (s : string) : string :=
  match s with
  | EmptyString => EmptyString
  | String c s' => if is_space c then lstrip s' else s
  end.

Fixpoint rstrip (s : string) : string :=
  match s with
  | EmptyString => EmptyString
  | String c s' =>
      let r := rstrip s' in
      match r with
      | EmptyString => if is_space c then EmptyString else String c EmptyString
      | _ => String c r
      end
  end.

Definition strip (s : string) : string := rstrip (lstrip s).

(** [s[:n]] *)
Definition take (n : nat) (s : string) : string := substring 0 n s.

(** [str(n)] for a natural number. *)
Definition str_of_nat (n : nat) : string :=
  NilEmpty.string_of_uint (Nat.to_uint n).

(** A dict [str -> str] and its [get(key, default)]. *)
Definition dict := list (string * string).

Fixpoint dict_lookup (d : dict) (k : string) : option string :=
  match d with
  | [] => None
  | (k', v) :: d' => if String.eqb k k' then Some v else dict_lookup d' k
  end.

Definition get (d : dict) (k : string) (default : string) : string :=
  match dict_lookup d k with Some v => v | None => default end.

End Py.

Import Py.

(* ------------------------------------------------------------------ *)
(** ** Quiz data (the dict built by [parse_quiz_for_display]) *)

Record MCQ := mkMCQ {
  mcq_question : string;
  mcq_options : list string;
  mcq_correct : string }.

Record Blank := mkBlank {
  blank_question : string;
  blank_answer : string }.

Record ShortQ := mkShort {
  short_question : string;
  short_expected : string }.

(** ["short_answer"]: [""] initially, a dict for one question, a list of
    dicts for several. *)
Inductive ShortSection :=
| NoShort
| SingleShort (s : ShortQ)
| ShortList (l : list ShortQ).

(** Truthiness of the ["short_answer"] value. *)
Definition short_truthy (s : ShortSection) : bool :=
  match s with
  | NoShort => false
  | SingleShort _ => true
  | ShortList l => match l with [] => false | _ => true end
  end.

Record QuizData := mkQuiz {
  mcq_questions : list MCQ;
  fill_blanks : list Blank;
  short_answer : ShortSection;
  raw_text : string }.

(* ------------------------------------------------------------------ *)
(** ** Scoring: [display_quiz_results], lines 523-578 *)

(** The three local variables of the scoring loop. *)
Record ScoreState := mkState {
  total_questions : nat;
  correct_answers : nat;
  weak_areas : list string }.

Definition incr_total (st : ScoreState) : ScoreState :=
  mkState (S (total_questions st)) (correct_answers st) (weak_areas st).

Definition incr_correct (st : ScoreState) : ScoreState :=
  mkState (total_questions st) (S (correct_answers st)) (weak_areas st).

(** [weak_areas.append(f"Question {n}: {question[:50]}...")] *)
Definition weak_descr (n : nat) (question : string) : string :=
  "Question " ++ str_of_nat n ++ ": " ++ take 50 question ++ "...".

Definition add_weak (n : nat) (question : string) (st : ScoreState) : ScoreState :=
  mkState (total_questions st) (correct_answers st)
          (app (weak_areas st) [weak_descr n question]).

(** Answer keys of the form [f"mcq_{i}"]. *)
Definition mcq_key (i : nat) : string := "mcq_" ++ str_of_nat i.
Definition blank_key (i : nat) : string := "blank_" ++ str_of_nat i.
Definition short_key (i : nat) : string := "short_answer_" ++ str_of_nat i.
Definition single_short_key : string := "short_answer".

(** [user_answer == mcq["correct"]] *)
Definition mcq_ok (answers : dict) (i : nat) (m : MCQ) : bool :=
  String.eqb (get answers (mcq_key i) "") (mcq_correct m).

(** [user_answer in correct_answer or correct_answer in user_answer] *)
Definition blank_ok (answers : dict) (i : nat) (b : Blank) : bool :=
  let user_answer := lower (get answers (blank_key i) "") in
  let correct_answer := lower (blank_answer b) in
  contains user_answer correct_answer || contains correct_answer user_answer.

(** [sum(1 for keyword in expected_keywords if keyword in user_answer)] *)
Fixpoint keyword_matches (expected_keywords : list string) (user_answer : string) : nat :=
  match expected_keywords with
  | [] => 0
  | k :: ks => (if contains k user_answer then 1 else 0) + keyword_matches ks user_answer
  end.

(** [keyword_matches >= len(expected_keywords) * 0.5] on the submission
    [user_raw] (before [.lower()]) and the expected answer. *)
Definition short_ok (user_raw expected : string) : bool :=
  let user_answer := lower user_raw in
  let expected_keywords := split (lower expected) in
  Qle_bool (inject_Z (Z.of_nat (length expected_keywords)) * (1 # 2))
           (inject_Z (Z.of_nat (keyword_matches expected_keywords user_answer))).

(** [for i, mcq in enumerate(quiz_data["mcq_questions"])] *)
Fixpoint check_mcqs (answers : dict) (i : nat) (l : list MCQ) (st : ScoreState)
  : ScoreState :=
  match l with
  | [] => st
  | m :: l' =>
      let st1 := incr_total st in
      let st2 := if mcq_ok answers i m then incr_correct st1
                 else add_weak (i + 1) (mcq_question m) st1 in
      check_mcqs answers (S i) l' st2
  end.

(** [for i, blank in enumerate(quiz_data["fill_blanks"])]; [nmcq] is
    [len(quiz_data['mcq_questions'])]. *)
Fixpoint check_blanks (answers : dict) (nmcq i : nat) (l : list Blank) (st : ScoreState)
  : ScoreState :=
  match l with
  | [] => st
  | b :: l' =>
      let st1 := incr_total st in
      let st2 := if blank_ok answers i b then incr_correct st1
                 else add_weak (nmcq + i + 1) (blank_question b) st1 in
      check_blanks answers nmcq (S i) l' st2
  end.

(** [for i, short_q in enumerate(quiz_data["short_answer"])]: the
    descriptor numbers the question with the running [total_questions]. *)
Fixpoint check_shorts (answers : dict) (i : nat) (l : list ShortQ) (st : ScoreState)
  : ScoreState :=
  match l with
  | [] => st
  | s :: l' =>
      let st1 := incr_total st in
      let st2 := if short_ok (get answers (short_key i) "") (short_expected s)
                 then incr_correct st1
                 else add_weak (total_questions st1) (short_question s) st1 in
      check_shorts answers (S i) l' st2
  end.

Definition check_single_short (answers : dict) (s : ShortQ) (st : ScoreState) : ScoreState :=
  let st1 := incr_total st in
  if short_ok (get answers single_short_key "") (short_expected s)
  then incr_correct st1
  else add_weak (total_questions st1) (short_question s) st1.

Definition score_loop (q : QuizData) (answers : dict) : ScoreState :=
  let st := check_mcqs answers 0 (mcq_questions q) (mkState 0 0 []) in
  let st := check_blanks answers (length (mcq_questions q)) 0 (fill_blanks q) st in
  if short_truthy (short_answer q) then
    match short_answer q with
    | ShortList l => check_shorts answers 0 l st
    | SingleShort s => check_single_short answers s st
    | NoShort => st
    end
  else st.

(** [(correct_answers / total_questions * 100) if total_questions > 0 else 0] *)
Definition percentage_of (correct total : nat) : Q :=
  if 0 <? total
  then (inject_Z (Z.of_nat correct) / inject_Z (Z.of_nat total)) * 100
  else 0.

Record ScoreReport := mkReport {
  rep_correct : nat;
  rep_total : nat;
  rep_percentage : Q;
  rep_missed : list string }.

(** The score report of one submission: [correct_answers],
    [total_questions], [percentage] and [weak_areas]. *)
Definition score (q : QuizData) (answers : dict) : ScoreReport :=
  let st := score_loop q answers in
  mkReport (correct_answers st) (total_questions st)
           (percentage_of (correct_answers st) (total_questions st))
           (weak_areas st).

(* ------------------------------------------------------------------ *)
(** ** The session around the scoring (lines 519-660) *)

(** One entry of [learning_progress["quiz_scores"]] (src/memory.py);
    the timestamp is left out. *)
Record QuizResult := mkResult {
  res_topic : string;
  res_score : nat;
  res_total : nat;
  res_percentage : Q;
  res_weak_areas : list string }.

Record Session := mkSession {
  quiz_answers : dict;
  has_chains : bool;                 (* ["chains" in st.session_state] *)
  quiz_saved_to_memory : bool;
  current_topic : string;
  quiz_scores : list QuizResult;
  progress_weak_areas : list string }.

(** [LearningMemory.add_quiz_result]: its [(score / total_questions) * 100]
    is unguarded, so [None] is the [ZeroDivisionError] it raises. *)
Definition add_quiz_result (topic : string) (sc total : nat) (weak : list string)
  (sess : Session) : option Session :=
  if total =? 0 then None
  else
    let r := mkResult topic sc total
               ((inject_Z (Z.of_nat sc) / inject_Z (Z.of_nat total)) * 100) weak in
    let wa := fold_left (fun acc a =>
                if existsb (String.eqb a) acc then acc else app acc [a])
                weak (progress_weak_areas sess) in
    Some (mkSession (quiz_answers sess) (has_chains sess) (quiz_saved_to_memory sess)
                    (current_topic sess) (app (quiz_scores sess) [r]) wa).

Definition set_saved (sess : Session) : Session :=
  mkSession (quiz_answers sess) (has_chains sess) true (current_topic sess)
            (quiz_scores sess) (progress_weak_areas sess).

(** [display_quiz_results]: the report it shows, and the session after it
    ([None] when the memory update raises). Rendering is left out. *)
Definition display_quiz_results (q : QuizData) (sess : Session)
  : ScoreReport * option Session :=
  let r := score q (quiz_answers sess) in
  if has_chains sess && negb (quiz_saved_to_memory sess) then
    match add_quiz_result (current_topic sess) (rep_correct r) (rep_total r)
                          (rep_missed r) sess with
    | Some sess' => (r, Some (set_saved sess'))
    | None => (r, None)
    end
  else (r, Some sess).

(* ------------------------------------------------------------------ *)
(** ** A backtracking matcher for the [re] patterns of the parser

    Patterns are built from literals, character sets, concatenation,
    greedy and lazy repetition, a greedy optional group and capturing
    groups: the constructs the four patterns of [parse_quiz_for_display]
    use. Matching is in continuation-passing style and tries the
    alternatives in the order of Python's [sre] engine (a greedy repetition
    first tries one more iteration, a lazy one first tries to stop), so the
    first match found is the one [re] reports. No pattern used here has a
    dot, so [re.DOTALL] changes nothing. *)

Module Re.

Inductive regex : Type :=
| REmpty
| RLit (c : ascii)
| RSet (neg : bool) (mem : ascii -> bool)
| RCat (r1 r2 : regex)
| RRep (greedy : bool) (min1 : bool) (r : regex)  (* r* r+ r*? r+? *)
| ROpt (r : regex)                                 (* (?:r)? *)
| RGroup (n : nat) (r : regex).

(** Captured groups, most recent capture first. *)
Definition groups := list (nat * string).

Fixpoint group (n : nat) (g : groups) : option string :=
  match g with
  | [] => None
  | (n', v) :: g' => if n =? n' then Some v else group n g'
  end.

Definition result := option (string * groups).
Definition cont := string -> groups -> result.

(** Under [re.IGNORECASE] a literal matches when the lowercased characters
    agree, and a set contains a character when it contains one of its
    cases. *)
Definition lit_matches (ic : bool) (p x : ascii) : bool :=
  if ic then Ascii.eqb (lower_char x) (lower_char p) else Ascii.eqb x p.

Definition set_matches (ic neg : bool) (mem : ascii -> bool) (x : ascii) : bool :=
  xorb neg (if ic then mem x || mem (lower_char x) || mem (upper_char x) else mem x).

(** Further iterations of a repetition whose body is matched by [mr]; an
    iteration that consumes nothing is refused, so [String.length s] iterations
    suffice and [fuel] never runs out first. *)
Fixpoint star (greedy : bool) (mr : string -> groups -> cont -> result)
  (fuel : nat) (s : string) (g : groups) (k : cont) : result :=
  match fuel with
  | 0 => k s g
  | S f =>
      let again := fun s' g' =>
        if String.length s' <? String.length s then star greedy mr f s' g' k else None in
      if greedy then
        match mr s g again with Some res => Some res | None => k s g end
      else
        match k s g with Some res => Some res | None => mr s g again end
  end.

Fixpoint m (ic : bool) (r : regex) (s : string) (g : groups) (k : cont) {struct r}
  : result :=
  match r with
  | REmpty => k s g
  | RLit c =>
      match s with
      | String x s' => if lit_matches ic c x then k s' g else None
      | EmptyString => None
      end
  | RSet neg mem =>
      match s with
      | String x s' => if set_matches ic neg mem x then k s' g else None
      | EmptyString => None
      end
  | RCat r1 r2 => m ic r1 s g (fun s1 g1 => m ic r2 s1 g1 k)
  | RRep greedy min1 r1 =>
      if min1
      then m ic r1 s g (fun s1 g1 => star greedy (m ic r1) (String.length s1) s1 g1 k)
      else star greedy (m ic r1) (String.length s) s g k
  | ROpt r1 => match m ic r1 s g k with Some res => Some res | None => k s g end
  | RGroup n r1 =>
      m ic r1 s g (fun s1 g1 => k s1 ((n, substring 0 (String.length s - String.length s1) s) :: g1))
  end.

(** A match anchored at the start of [s]: the rest of the input and the
    groups. *)
Definition match_at (ic : bool) (r : regex) (s : string) : result :=
  m ic r s [] (fun s' g => Some (s', g)).

(** One row of [re.findall] for a pattern with [n] groups; a group that
    did not take part in the match is [""]. *)
Definition row (n : nat) (g : groups) : list string :=
  map (fun i => match group i g with Some v => v | None => "" end) (seq 1 n).

(** [re.findall]: scan left to right, resume after each match. *)
Fixpoint findall_go (ic : bool) (r : regex) (n : nat) (fuel : nat) (s : string)
  : list (list string) :=
  match fuel with
  | 0 => []
  | S f =>
      let skip := match s with
                  | EmptyString => []
                  | String _ t => findall_go ic r n f t
                  end in
      match match_at ic r s with
      | Some (s', g) =>
          row n g :: (if String.length s' <? String.length s then findall_go ic r n f s' else skip)
      | None => skip
      end
  end.

Definition findall (ic : bool) (r : regex) (n : nat) (s : string) : list (list string) :=
  findall_go ic r n (S (String.length s)) s.

(** [re.search]: the groups of the leftmost match. *)
Fixpoint search (ic : bool) (r : regex) (s : string) : option groups :=
  match match_at ic r s with
  | Some (_, g) => Some g
  | None =>
      match s with
      | EmptyString => None
      | String _ t => search ic r t
      end
  end.

(** Pattern building blocks. *)
Fixpoint lits (s : string) : regex :=
  match s with
  | EmptyString => REmpty
  | String c s' => RCat (RLit c) (lits s')
  end.

Definition cat (rs : list regex) : regex := fold_right RCat REmpty rs.

Definition chars_in (cs : string) (c : ascii) : bool :=
  existsb (Ascii.eqb c) (list_ascii_of_string cs).

Definition newline : string := String (ascii_of_nat 10) EmptyString.

Definition d_plus : regex := RRep true true (RSet false is_digit).      (* \d+ *)
Definition s_star : regex := RRep true false (RSet false is_space).     (* \s* *)
Definition lazy_not (cs : string) : regex := RRep false true (RSet true (chars_in cs)).
Definition greedy_not (cs : string) : regex := RRep true true (RSet true (chars_in cs)).
Definition A_to_D (c : ascii) : bool :=
  let n := nat_of_ascii c in (65 <=? n) && (n <=? 68).

End Re.

Import Re.

(* ------------------------------------------------------------------ *)
(** ** [parse_quiz_for_display] and [create_fallback_quiz_data] *)

(** [r'(\d+\.\s*[^A-D]+?)\s*A\)\s*([^B]+?)\s*B\)\s*([^C]+?)\s*C\)\s*([^D]+?)\s*D\)\s*([^C]+?)\s*Correct Answer:\s*([A-D])'] *)
Definition mcq_pattern : regex :=
  cat [ RGroup 1 (cat [d_plus; lits "."; s_star; RRep false true (RSet true A_to_D)]);
        s_star; lits "A)"; s_star; RGroup 2 (lazy_not "B");
        s_star; lits "B)"; s_star; RGroup 3 (lazy_not "C");
        s_star; lits "C)"; s_star; RGroup 4 (lazy_not "D");
        s_star; lits "D)"; s_star; RGroup 5 (lazy_not "C");
        s_star; lits "Correct Answer:"; s_star; RGroup 6 (RSet false A_to_D) ].

(** [mcq_pattern_flexible]: the source writes the same pattern text again. *)
Definition mcq_pattern_flexible : regex := mcq_pattern.

(** [r'(\d+\.\s*[^_]+?)\s*______\s*\[Hint[^]]*\]\s*Answer:\s*([^\n]+)'] *)
Definition blank_pattern : regex :=
  cat [ RGroup 1 (cat [d_plus; lits "."; s_star; lazy_not "_"]);
        s_star; lits "______"; s_star; lits "[Hint"; RRep true false (RSet true (chars_in "]"));
        lits "]"; s_star; lits "Answer:"; s_star; RGroup 2 (greedy_not newline) ].

(** [r'(\d+\.\s*[^_]+?)\s*______\s*\.\s*Answer:\s*([^\n]+)'] *)
Definition blank_pattern_simple : regex :=
  cat [ RGroup 1 (cat [d_plus; lits "."; s_star; lazy_not "_"]);
        s_star; lits "______"; s_star; lits "."; s_star; lits "Answer:"; s_star;
        RGroup 2 (greedy_not newline) ].

(** [r'Short Answer Questions[^:]*:\s*(\d+\.\s*[^E]+?)Expected Answer:\s*([^\n]+)(?:\s*\d+\.\s*([^E]+?)Expected Answer:\s*([^\n]+))?'] *)
Definition short_pattern : regex :=
  cat [ lits "Short Answer Questions"; RRep true false (RSet true (chars_in ":")); lits ":";
        s_star; RGroup 1 (cat [d_plus; lits "."; s_star; lazy_not "E"]);
        lits "Expected Answer:"; s_star; RGroup 2 (greedy_not newline);
        ROpt (cat [ s_star; d_plus; lits "."; s_star; RGroup 3 (lazy_not "E");
                    lits "Expected Answer:"; s_star; RGroup 4 (greedy_not newline) ]) ].

(** MCQ matches: the strict pass, then, only if it found nothing, the
    same pattern with [re.IGNORECASE]. *)
Definition mcq_matches (quiz_text : string) : list (list string) :=
  match findall false mcq_pattern 6 quiz_text with
  | [] => findall true mcq_pattern_flexible 6 quiz_text
  | ms => ms
  end.

Definition mcq_of_match (g : list string) : MCQ :=
  let grp i := nth i g "" in
  mkMCQ (strip (grp 0)) [strip (grp 1); strip (grp 2); strip (grp 3); strip (grp 4)]
        (strip (grp 5)).

Definition extract_mcqs (quiz_text : string) : list MCQ :=
  map mcq_of_match (mcq_matches quiz_text).

Definition blank_matches (quiz_text : string) : list (list string) :=
  match findall false blank_pattern 2 quiz_text with
  | [] => findall false blank_pattern_simple 2 quiz_text
  | ms => ms
  end.

Definition blank_of_match (g : list string) : Blank :=
  mkBlank (strip (nth 0 g "")) (strip (nth 1 g "")).

Definition extract_blanks (quiz_text : string) : list Blank :=
  map blank_of_match (blank_matches quiz_text).

(** [if short_match.group(3)]: [None] and [""] are falsy. *)
Definition group_truthy (v : option string) : bool :=
  match v with Some (String _ _) => true | _ => false end.

Definition extract_short (quiz_text : string) : ShortSection :=
  match search false short_pattern quiz_text with
  | None => NoShort
  | Some g =>
      let grp i := match group i g with Some v => strip v | None => "" end in
      if group_truthy (group 3 g)
      then ShortList [mkShort (grp 1) (grp 2); mkShort (grp 3) (grp 4)]
      else SingleShort (mkShort (grp 1) (grp 2))
  end.

Definition list_truthy {A} (l : list A) : bool :=
  match l with [] => false | _ => true end.

Definition create_fallback_quiz_data : QuizData :=
  mkQuiz
    [ mkMCQ "1. What is the main purpose of a CV?"
        [ "To list personal hobbies";
          "To showcase work experience and qualifications";
          "To write a story";
          "To make friends" ] "B";
      mkMCQ "2. What should be included in a professional CV?"
        [ "Only personal information";
          "Work experience, education, and skills";
          "Only education";
          "Only skills" ] "B";
      mkMCQ "3. What language was the CV written in?"
        [ "English"; "French"; "Dutch"; "German" ] "C" ]
    [ mkBlank "1. A CV is also known as a ______." "resume";
      mkBlank "2. Blal Masroor worked as a kitchen ______ in restaurants." "assistant" ]
    (ShortList
      [ mkShort "1. What type of work experience does Blal Masroor have?"
          "He has experience working in restaurants as a kitchen assistant, with certifications in culinary arts.";
        mkShort "2. What certifications does Blal Masroor have?"
          "He has certifications in chocolate making, praline making, bread baking, and pastry making from Centrum voor Volwassenenonderwijs Gent." ])
    "Fallback quiz generated due to parsing issues".

(** [parse_quiz_for_display]. Its [try]/[except] returns the fallback quiz
    on an exception; none of the operations above raises, so the body is
    total. *)
Definition parse_quiz_for_display (quiz_text : string) : QuizData :=
  let q := mkQuiz (extract_mcqs quiz_text) (extract_blanks quiz_text)
                  (extract_short quiz_text) quiz_text in
  if negb (list_truthy (mcq_questions q)) && negb (list_truthy (fill_blanks q))
     && negb (short_truthy (short_answer q))
  then create_fallback_quiz_data
  else q.

(* ------------------------------------------------------------------ *)
(** ** The quiz as a flat sequence of graded items

    The scoring loop visits the MCQs, then the fill-blanks, then the short
    answers. [entries] lists these items with the answer key each one reads
    and the question number its weak-area descriptor carries; [entry_ok] is
    the per-type rule. These are the terms in which the report is stated. *)

Inductive QItem :=
| QMcq (m : MCQ)
| QBlank (b : Blank)
| QShort (s : ShortQ).

Record Entry := mkEntry {
  e_num : nat;
  e_key : string;
  e_item : QItem }.

Fixpoint mcq_entries (i : nat) (l : list MCQ) : list Entry :=
  match l with
  | [] => []
  | m :: l' => mkEntry (i + 1) (mcq_key i) (QMcq m) :: mcq_entries (S i) l'
  end.

Fixpoint blank_entries (nmcq i : nat) (l : list Blank) : list Entry :=
  match l with
  | [] => []
  | b :: l' => mkEntry (nmcq + i + 1) (blank_key i) (QBlank b) :: blank_entries nmcq (S i) l'
  end.

Fixpoint short_entries (base i : nat) (l : list ShortQ) : list Entry :=
  match l with
  | [] => []
  | s :: l' => mkEntry (base + i + 1) (short_key i) (QShort s) :: short_entries base (S i) l'
  end.

Definition short_section_entries (base : nat) (s : ShortSection) : list Entry :=
  match s with
  | NoShort => []
  | SingleShort x => [mkEntry (base + 1) single_short_key (QShort x)]
  | ShortList l => short_entries base 0 l
  end.

Definition entries (q : QuizData) : list Entry :=
  app (mcq_entries 0 (mcq_questions q))
      (app (blank_entries (length (mcq_questions q)) 0 (fill_blanks q))
           (short_section_entries (length (mcq_questions q) + length (fill_blanks q))
                                  (short_answer q))).

(** Number of short-answer items of a quiz. *)
Definition short_count (s : ShortSection) : nat :=
  match s with
  | NoShort => 0
  | SingleShort _ => 1
  | ShortList l => length l
  end.

Definition entry_ok (answers : dict) (e : Entry) : bool :=
  let submitted := get answers (e_key e) "" in
  match e_item e with
  | QMcq m => String.eqb submitted (mcq_correct m)
  | QBlank b =>
      contains (lower submitted) (lower (blank_answer b))
      || contains (lower (blank_answer b)) (lower submitted)
  | QShort s => short_ok submitted (short_expected s)
  end.

Definition entry_question (e : Entry) : string :=
  match e_item e with
  | QMcq m => mcq_question m
  | QBlank b => blank_question b
  | QShort s => short_question s
  end.

Definition entry_descr (e : Entry) : string := weak_descr (e_num e) (entry_question e).

(** One iteration of the scoring loop, on any item. *)
Definition step (answers : dict) (st : ScoreState) (e : Entry) : ScoreState :=
  let st1 := incr_total st in
  if entry_ok answers e then incr_correct st1
  else add_weak (e_num e) (entry_question e) st1.

(** The single-pass alternative to the two-pass MCQ extraction: the
    pattern compiled with [re.IGNORECASE] only. *)
Definition mcq_matches_single_ic (quiz_text : string) : list (list string) :=
  findall true mcq_pattern 6 quiz_text.

(** Sample inputs. *)
Definition mcq_sample : string :=
  "1. What is it? A) x B) y C) z D) w Correct Answer: B".

Definition short_sample : string :=
  "Short Answer Questions:" ++ newline ++
  "1. Why? Expected Answer: because" ++ newline ++
  "2. How? Expected Answer: so" ++ newline ++
  "3. Who? Expected Answer: me".

(* ------------------------------------------------------------------ *)
(** ** [SmartStudyChains._format_fallback_quiz] (src/chains.py) *)

Fixpoint join_lines (l : list string) : string :=
  match l with
  | [] => ""
  | [x] => x
  | x :: xs => x ++ newline ++ join_lines xs
  end.

(** The quiz text the fallback LLM path returns; both arguments are
    unused by the source. *)
Definition format_fallback_quiz (fallback_response topic : string) : string :=
  join_lines [
    "**Multiple Choice Questions (3 questions):**";
    "";
    "1. What is the main purpose of a CV?";
    "   A) To list personal hobbies";
    "   B) To showcase work experience and qualifications";
    "   C) To write a story";
    "   D) To make friends";
    "   Correct Answer: B";
    "";
    "2. What should be included in a professional CV?";
    "   A) Only personal information";
    "   B) Work experience, education, and skills";
    "   C) Only education";
    "   D) Only skills";
    "   Correct Answer: B";
    "";
    "3. What language was the CV written in?";
    "   A) English";
    "   B) French";
    "   C) Dutch";
    "   D) German";
    "   Correct Answer: C";
    "";
    "**Fill in the Blanks (2 questions):**";
    "1. A CV is also known as a ______ [Hint: another name for CV]";
    "   Answer: resume";
    "";
    "2. Blal Masroor worked as a kitchen ______ in restaurants [Hint: job position]";
    "   Answer: assistant";
    "";
    "**Short Answer Questions (2 questions):**";
    "1. What type of work experience does Blal Masroor have?";
    "   Expected Answer: He has experience working in restaurants as a kitchen assistant, with certifications in culinary arts.";
    "";
    "2. What certifications does Blal Masroor have?";
    "   Expected Answer: He has certifications in chocolate making, praline making, bread baking, and pastry making from Centrum voor Volwassenenonderwijs Gent.";
    "";
    "[Generated by fallback LLM - Basic quiz format]" ].

(* ------------------------------------------------------------------ *)
(** ** [extract_key_content] and [validate_file_upload] (src/utils.py) *)

(** A slice bound of [s[start:stop]] for a string of length [len]:
    negative bounds count from the end, and bounds are clamped. *)
Definition slice_index (len : nat) (i : Z) : nat :=
  if (i <? 0)%Z then Z.to_nat (Z.max 0 (Z.of_nat len + i))
  else Nat.min (Z.to_nat i) len.

(** [s[start:stop]], [None] being an omitted bound. *)
Definition slice (s : string) (start stop : option Z) : string :=
  let n := String.length s in
  let a := match start with None => 0 | Some i => slice_index n i end in
  let b := match stop with None => n | Some i => slice_index n i end in
  substring a (b - a) s.

(** ["\n\n... [Content truncated for processing] ...\n\n"] *)
Definition truncation_marker : string :=
  newline ++ newline ++ "... [Content truncated for processing] ..." ++ newline ++ newline.

(** [max_length] is a Python [int]; [//] is floor division, as [Z.div]. *)
Definition extract_key_content (text : string) (max_length : Z) : string :=
  if (Z.of_nat (String.length text) <=? max_length)%Z then text
  else
    let half_length := (max_length / 2)%Z in
    slice text None (Some half_length) ++ truncation_marker
      ++ slice text (Some (- half_length)%Z) None.

(** [str.rfind] for one character: the last index, or [-1]. *)
Fixpoint rfind_from (c : ascii) (s : string) (i : nat) (best : Z) : Z :=
  match s with
  | EmptyString => best
  | String x s' => rfind_from c s' (S i) (if Ascii.eqb x c then Z.of_nat i else best)
  end.

Definition rfind (c : ascii) (s : string) : Z := rfind_from c s 0 (-1).

Definition is_dot (c : ascii) : bool := Ascii.eqb c "."%char.

(** [os.path.splitext(p)[1]] with the POSIX separator (genericpath
    [_splitext]): the text from the last dot of the last path component,
    unless that component has only dots before it. *)
Definition splitext_ext (p : string) : string :=
  let sepIndex := rfind "/"%char p in
  let dotIndex := rfind "."%char p in
  if (sepIndex <? dotIndex)%Z then
    let before := substring (Z.to_nat (sepIndex + 1))
                            (Z.to_nat (dotIndex - (sepIndex + 1))) p in
    if existsb (fun x => negb (is_dot x)) (list_ascii_of_string before)
    then substring (Z.to_nat dotIndex) (String.length p - Z.to_nat dotIndex) p
    else ""
  else "".

(** The fields of a Streamlit uploaded file the code reads. *)
Record UploadedFile := mkFile {
  file_name : string;
  file_size : nat }.

Definition max_size : nat := 10 * 1024 * 1024.

Definition allowed_extensions : list string := [".pdf"; ".docx"].

Definition validate_file_upload (file : option UploadedFile) : bool :=
  match file with
  | None => false
  | Some f =>
      let file_extension := lower (splitext_ext (file_name f)) in
      if negb (existsb (String.eqb file_extension) allowed_extensions) then false
      else if max_size <? file_size f then false
      else true
  end.

(* ------------------------------------------------------------------ *)
(** ** Topic and quiz history of [SmartStudyMemory] (src/memory.py)

    [now] stands for [st.session_state.get("current_time", "Unknown")]. *)

Record TopicEntry := mkTopic {
  t_topic : string;
  t_explanation : string;
  t_timestamp : string }.

(** The [else] branch of [add_topic_explanation]: the first entry whose
    topic equals [topic] case-insensitively gets the new explanation. *)
Fixpoint update_topic (topic explanation now : string) (l : list TopicEntry)
  : list TopicEntry :=
  match l with
  | [] => []
  | t :: l' =>
      if String.eqb (lower (t_topic t)) (lower topic)
      then mkTopic (t_topic t) explanation now :: l'
      else t :: update_topic topic explanation now l'
  end.

Definition add_topic_explanation (topic explanation now : string)
  (topics_explained : list TopicEntry) : list TopicEntry :=
  let existing_topics := map (fun t => lower (t_topic t)) topics_explained in
  if negb (existsb (String.eqb (lower topic)) existing_topics)
  then app topics_explained [mkTopic topic explanation now]
  else update_topic topic explanation now topics_explained.

(** The loop of [get_learning_summary] and [clear_duplicates] keeping the
    first item of each [key] (a lowercased topic); [seen] is
    [seen_topics]. *)
Fixpoint keep_first_by {A} (key : A -> string) (seen : list string) (l : list A) : list A :=
  match l with
  | [] => []
  | t :: l' =>
      if existsb (String.eqb (key t)) seen
      then keep_first_by key seen l'
      else t :: keep_first_by key (key t :: seen) l'
  end.

Definition topic_key (t : TopicEntry) : string := lower (t_topic t).





(** The quiz part of [clear_duplicates]: walk the results from the latest,
    keep the first per lowercased topic, restore the order. *)
Definition quiz_key (q : QuizResult) : string := lower (res_topic q).

Definition clear_duplicate_quizzes (quiz_scores : list QuizResult) : list QuizResult :=
  rev (keep_first_by quiz_key [] (rev quiz_scores)).

(* ------------------------------------------------------------------ *)
(** ** Answer collection of [display_quiz_with_answers] (app.py 439-514) *)

(** [d[k] = v] on a dict: an existing key keeps its place, a new key goes
    last. *)
Fixpoint dict_set (d : dict) (k v : string) : dict :=
  match d with
  | [] => [(k, v)]
  | (k', v') :: d' =>
      if String.eqb k k' then (k', v) :: d' else (k', v') :: dict_set d' k v
  end.

(** [f"{chr(65+j)}) {option}"] *)
Definition option_label (j : nat) (option : string) : string :=
  String (ascii_of_nat (65 + j)) (") " ++ option).

Fixpoint option_labels (j : nat) (opts : list string) : list string :=
  match opts with
  | [] => []
  | o :: os => option_label j o :: option_labels (S j) os
  end.

(** The widget values of one run: the index of the option selected in each
    radio ([st.radio] starts on the first, index 0), and the text of each
    text input and text area ([""] when empty). *)
Record FormInput := mkForm {
  mcq_choice : list nat;
  blank_input : list string;
  short_input : list string;
  single_short_input : string }.

(** [if selected: quiz_answers[f"mcq_{i}"] = selected[0]] *)
Fixpoint store_mcqs (choices : list nat) (i : nat) (l : list MCQ) (d : dict) : dict :=
  match l with
  | [] => d
  | m :: l' =>
      let selected := nth_error (option_labels 0 (mcq_options m)) (nth i choices 0) in
      let d' := match selected with
                | Some (String c _) => dict_set d (mcq_key i) (String c EmptyString)
                | _ => d
                end in
      store_mcqs choices (S i) l' d'
  end.

(** [if answer: quiz_answers[key] = answer.strip()] *)
Definition store_text (key answer : string) (d : dict) : dict :=
  match answer with
  | EmptyString => d
  | _ => dict_set d key (strip answer)
  end.

Fixpoint store_texts (keyf : nat -> string) (inputs : list string) (i : nat) (n : nat)
  (d : dict) : dict :=
  match n with
  | 0 => d
  | S n' => store_texts keyf inputs (S i) n' (store_text (keyf i) (nth i inputs "") d)
  end.

Definition store_answers (q : QuizData) (inp : FormInput) (d : dict) : dict :=
  let d := store_mcqs (mcq_choice inp) 0 (mcq_questions q) d in
  let d := store_texts blank_key (blank_input inp) 0 (length (fill_blanks q)) d in
  if short_truthy (short_answer q) then
    match short_answer q with
    | ShortList l => store_texts short_key (short_input inp) 0 (length l) d
    | SingleShort _ => store_text single_short_key (single_short_input inp) d
    | NoShort => d
    end
  else d.

(** [if len(st.session_state.quiz_answers) > 0: quiz_submitted = True] *)
Definition submit_allowed (d : dict) : bool := 0 <? length d.

(* ------------------------------------------------------------------ *)
(** ** [HuggingFaceProvider._clean_text] (src/llm_providers.py) *)

(** [sep.join(l)] *)
Fixpoint join_with (sep : string) (l : list string) : string :=
  match l with
  | [] => ""
  | [x] => x
  | x :: xs => x ++ sep ++ join_with sep xs
  end.

(** [s.split(c)] for a one-character separator: the pieces between the
    occurrences of [c], at least one. *)
Fixpoint split_on_go (c : ascii) (s : string) : string * list string :=
  match s with
  | EmptyString => (EmptyString, [])
  | String x s' =>
      let (w, ws) := split_on_go c s' in
      if Ascii.eqb x c then (EmptyString, w :: ws) else (String x w, ws)
  end.

Definition split_on (c : ascii) (s : string) : list string :=
  let (w, ws) := split_on_go c s in w :: ws.

Definition clean_text (text : string) : string :=
  let text := join_with " " (split text) in
  let sentences := split_on "."%char text in
  let text :=
    if (1 <? length sentences) && (String.length (strip (last sentences "")) <? 10)
    then join_with "." (removelast sentences) ++ "."
    else text in
  strip text.

(* ------------------------------------------------------------------ *)
(** ** The rest of [display_quiz_results] (app.py 582-650) *)

(** The banner color, each with its message. *)
Inductive Banner := Green | Orange | Red.

Definition banner (percentage : Q) : Banner :=
  if Qle_bool 80 percentage then Green
  else if Qle_bool 60 percentage then Orange
  else Red.

(** The "Correct Answers" review: the number and the question of each item
    it lists, each loop re-checking the answer with its own test. *)
Fixpoint review_mcqs (answers : dict) (i : nat) (l : list MCQ) : list (nat * string) :=
  match l with
  | [] => []
  | m :: l' =>
      let user_answer := get answers (mcq_key i) "" in
      app (if negb (String.eqb user_answer (mcq_correct m))
           then [(i + 1, mcq_question m)] else [])
          (review_mcqs answers (S i) l')
  end.

Fixpoint review_blanks (answers : dict) (nmcq i : nat) (l : list Blank)
  : list (nat * string) :=
  match l with
  | [] => []
  | b :: l' =>
      let user_answer := lower (get answers (blank_key i) "") in
      let correct_answer := lower (blank_answer b) in
      app (if negb (contains user_answer correct_answer)
              && negb (contains correct_answer user_answer)
           then [(nmcq + i + 1, blank_question b)] else [])
          (review_blanks answers nmcq (S i) l')
  end.

(** [keyword_matches < len(expected_keywords) * 0.5] *)
Definition short_missed (user_raw expected : string) : bool :=
  let user_answer := lower user_raw in
  let expected_keywords := split (lower expected) in
  match Qcompare (inject_Z (Z.of_nat (keyword_matches expected_keywords user_answer)))
                 (inject_Z (Z.of_nat (length expected_keywords)) * (1 # 2)) with
  | Lt => true
  | _ => false
  end.

Fixpoint review_shorts (answers : dict) (base i : nat) (l : list ShortQ)
  : list (nat * string) :=
  match l with
  | [] => []
  | s :: l' =>
      app (if short_missed (get answers (short_key i) "") (short_expected s)
           then [(base + i + 1, short_question s)] else [])
          (review_shorts answers base (S i) l')
  end.

(** [if weak_areas:] guards the whole review; the single short answer is
    numbered [total_questions]. *)
Definition review_items (q : QuizData) (answers : dict) : list (nat * string) :=
  let r := score q answers in
  if list_truthy (rep_missed r) then
    let nmcq := length (mcq_questions q) in
    let nblank := length (fill_blanks q) in
    app (review_mcqs answers 0 (mcq_questions q))
        (app (review_blanks answers nmcq 0 (fill_blanks q))
             (if short_truthy (short_answer q) then
                match short_answer q with
                | ShortList l => review_shorts answers (nmcq + nblank) 0 l
                | SingleShort s =>
                    if short_missed (get answers single_short_key "") (short_expected s)
                    then [(rep_total r, short_question s)] else []
                | NoShort => []
                end
              else []))
  else [].

(* ------------------------------------------------------------------ *)
(** ** Auxiliary notions for the properties below *)

(** Text without leading or trailing whitespace whose only whitespace is
    single [" "] between other characters. The state is 0 at the start, 1
    after another character, 2 after a space. *)
Fixpoint spaced_from (st : nat) (s : string) : bool :=
  match s with
  | EmptyString => negb (st =? 2)
  | String c s' =>
      if is_space c then (st =? 1) && Ascii.eqb c " "%char && spaced_from 2 s'
      else spaced_from 1 s'
  end.

Definition single_spaced (s : string) : bool := spaced_from 0 s.

Definition no_space (w : string) : Prop :=
  forallb (fun c => negb (is_space c)) (list_ascii_of_string w) = true.

Definition clean_cond (t1 : string) : bool :=
  (1 <? length (split_on "."%char t1))
  && (String.length (strip (last (split_on "."%char t1) "")) <? 10).

Definition words_tail (ws : list string) : string :=
  match ws with [] => "" | _ => " " ++ join_with " " ws end.

Definition review_of (e : Entry) : nat * string := (e_num e, entry_question e).

(* ================================================================== *)
(** * Properties *)

(** ** The loop as a fold over [entries] *)

Lemma check_mcqs_fold (a : dict) (l : list MCQ) : forall i st,
  check_mcqs a i l st = fold_left (step a) (mcq_entries i l) st.
Proof.
  induction l as [|m l IH]; intros i st; simpl; [reflexivity|].
  rewrite IH. reflexivity.
Qed.

Lemma check_blanks_fold (a : dict) (nmcq : nat) (l : list Blank) : forall i st,
  check_blanks a nmcq i l st = fold_left (step a) (blank_entries nmcq i l) st.
Proof.
  induction l as [|b l IH]; intros i st; simpl; [reflexivity|].
  rewrite IH. reflexivity.
Qed.

Lemma step_total (a : dict) (st : ScoreState) (e : Entry) :
  total_questions (step a st e) = S (total_questions st).
Proof. unfold step. destruct (entry_ok a e); reflexivity. Qed.

Lemma check_shorts_fold (a : dict) (base : nat) (l : list ShortQ) : forall i st,
  total_questions st = base + i ->
  check_shorts a i l st = fold_left (step a) (short_entries base i l) st.
Proof.
  induction l as [|s l IH]; intros i st Ht; [reflexivity|].
  cbn [check_shorts short_entries fold_left].
  unfold step, entry_ok, entry_question; cbn [e_key e_item e_num].
  assert (E : total_questions (incr_total st) = base + i + 1) by (simpl; lia).
  rewrite E.
  destruct (short_ok _ _); apply IH; simpl; lia.
Qed.

Lemma fold_step (a : dict) (es : list Entry) : forall st,
  fold_left (step a) es st =
  mkState (total_questions st + length es)
          (correct_answers st + length (filter (entry_ok a) es))
          (app (weak_areas st) (map entry_descr (filter (fun e => negb (entry_ok a e)) es))).
Proof.
  induction es as [|e es IH]; intros st; simpl.
  - destruct st; simpl. rewrite !Nat.add_0_r, app_nil_r. reflexivity.
  - rewrite IH. unfold step. destruct (entry_ok a e) eqn:E; simpl; f_equal; try lia.
    rewrite <- app_assoc. reflexivity.
Qed.

Lemma length_mcq_entries (l : list MCQ) : forall i, length (mcq_entries i l) = length l.
Proof. induction l; intros i; simpl; auto. Qed.

Lemma length_blank_entries (n : nat) (l : list Blank) : forall i,
  length (blank_entries n i l) = length l.
Proof. induction l; intros i; simpl; auto. Qed.

Lemma length_short_entries (n : nat) (l : list ShortQ) : forall i,
  length (short_entries n i l) = length l.
Proof. induction l; intros i; simpl; auto. Qed.

Lemma length_short_section_entries (n : nat) (s : ShortSection) :
  length (short_section_entries n s) = short_count s.
Proof. destruct s; simpl; auto using length_short_entries. Qed.

Lemma score_loop_entries (q : QuizData) (a : dict) :
  score_loop q a = fold_left (step a) (entries q) (mkState 0 0 []).
Proof.
  unfold score_loop, entries.
  rewrite check_mcqs_fold, check_blanks_fold, !fold_left_app.
  set (st := fold_left (step a) (blank_entries _ 0 _) _).
  assert (Ht : total_questions st = length (mcq_questions q) + length (fill_blanks q)).
  { unfold st. rewrite !fold_step. simpl.
    rewrite length_mcq_entries, length_blank_entries. reflexivity. }
  clearbody st.
  destruct (short_answer q) as [|x|[|x l]]; simpl.
  - reflexivity.
  - unfold check_single_short, step, entry_ok, entry_question; cbn [e_key e_item e_num].
    assert (E : total_questions (incr_total st) =
                length (mcq_questions q) + length (fill_blanks q) + 1) by (simpl; lia).
    rewrite E. reflexivity.
  - reflexivity.
  - apply (check_shorts_fold a _ (x :: l) 0 st). lia.
Qed.

Lemma score_entries (q : QuizData) (a : dict) :
  score q a =
  let es := entries q in
  let c := length (filter (entry_ok a) es) in
  mkReport c (length es) (percentage_of c (length es))
           (map entry_descr (filter (fun e => negb (entry_ok a e)) es)).
Proof. unfold score. rewrite score_loop_entries, fold_step. reflexivity. Qed.

Lemma length_entries (q : QuizData) :
  length (entries q) =
  length (mcq_questions q) + length (fill_blanks q) + short_count (short_answer q).
Proof.
  unfold entries. rewrite !length_app, length_mcq_entries, length_blank_entries,
    length_short_section_entries. lia.
Qed.

Lemma filter_split_length {A} (f : A -> bool) (l : list A) :
  length (filter f l) + length (filter (fun x => negb (f x)) l) = length l.
Proof. induction l as [|x l IH]; simpl; [reflexivity|]. destruct (f x); simpl; lia. Qed.

Lemma percentage_of_pos (c t : nat) :
  0 < t -> (percentage_of c t == 100 * inject_Z (Z.of_nat c) / inject_Z (Z.of_nat t))%Q.
Proof.
  intros Ht. unfold percentage_of.
  destruct (Nat.ltb_spec 0 t); [|lia].
  unfold Qdiv. ring.
Qed.

Lemma percentage_of_bounds (c t : nat) :
  c <= t -> (0 <= percentage_of c t <= 100)%Q.
Proof.
  intros Hc. unfold percentage_of.
  destruct (Nat.ltb_spec 0 t) as [Ht|Ht]; [|split; discriminate].
  assert (Hq : (0 < inject_Z (Z.of_nat t))%Q).
  { change 0%Q with (inject_Z 0). rewrite <- Zlt_Qlt. lia. }
  assert (E : (inject_Z (Z.of_nat c) / inject_Z (Z.of_nat t) * 100 ==
               inject_Z (Z.of_nat c * 100) / inject_Z (Z.of_nat t))%Q).
  { rewrite inject_Z_mult. unfold Qdiv. ring. }
  rewrite E. split.
  - apply Qle_shift_div_l; [exact Hq|].
    rewrite Qmult_0_l. change 0%Q with (inject_Z 0). rewrite <- Zle_Qle. lia.
  - apply Qle_shift_div_r; [exact Hq|].
    change 100%Q with (inject_Z 100).
    rewrite <- inject_Z_mult. rewrite <- Zle_Qle. lia.
Qed.

Lemma contains_empty (hay : string) : contains EmptyString hay = true.
Proof. destruct hay; reflexivity. Qed.

Lemma keyword_matches_filter (kws : list string) (u : string) :
  keyword_matches kws u = length (filter (fun k => contains k u) kws).
Proof. induction kws as [|k ks IH]; simpl; [reflexivity|]. destruct (contains k u); simpl; auto. Qed.

Lemma half_threshold (n m : nat) :
  Qle_bool (inject_Z (Z.of_nat n) * (1 # 2)) (inject_Z (Z.of_nat m)) = (n <=? 2 * m).
Proof.
  apply eq_true_iff_eq. rewrite Qle_bool_iff, Nat.leb_le.
  unfold Qle; simpl. lia.
Qed.

Lemma display_report (q : QuizData) (sess : Session) :
  fst (display_quiz_results q sess) = score q (quiz_answers sess).
Proof.
  unfold display_quiz_results.
  destruct (has_chains sess && negb (quiz_saved_to_memory sess)); [|reflexivity].
  destruct (add_quiz_result _ _ _ _ _); reflexivity.
Qed.

Lemma display_keeps_answers (q : QuizData) (sess sess' : Session) :
  snd (display_quiz_results q sess) = Some sess' -> quiz_answers sess' = quiz_answers sess.
Proof.
  unfold display_quiz_results, add_quiz_result.
  destruct (has_chains sess && negb (quiz_saved_to_memory sess)).
  - destruct (Nat.eqb _ 0); simpl; intros H; inversion H; reflexivity.
  - simpl; intros H; inversion H; reflexivity.
Qed.

(** ** Claims *)

(** C1 (FillBlank rule). A fill-in-blank item is graded with lowercased,
    two-way substring containment, and an unanswered item is read as [""].
    Since [""] is a substring of every string, an unanswered fill-in-blank
    item is graded correct whatever its expected answer, not only when that
    answer is empty. *)
Theorem blank_unanswered_graded_correct (answers : dict) (i : nat) (b : Blank)
  (Habsent : dict_lookup answers (blank_key i) = None) :
  blank_ok answers i b = true.
Proof.
  unfold blank_ok, get. rewrite Habsent. simpl. rewrite contains_empty. reflexivity.
Qed.

Lemma blank_unanswered_graded_correct_witness :
  dict_lookup [] (blank_key 0) = None /\
  blank_ok [] 0 (mkBlank "1. A CV is also known as a ______." "resume") = true.
Proof.
  split; [reflexivity|].
  apply blank_unanswered_graded_correct. reflexivity.
Defined.

(** C2 (empty answer set). Scoring the fallback quiz, whose expected answers
    are all non-empty, against the empty answer set gives [correct = 2], not
    [0]: its two fill-in-blank items are graded correct. *)
Theorem empty_answers_fallback_score :
  rep_correct (score create_fallback_quiz_data []) = 2 /\
  rep_total (score create_fallback_quiz_data []) = 7.
Proof. vm_compute. split; reflexivity. Qed.

(** C3 (fallback quiz). When none of the three extractions yields an item,
    [parse_quiz_for_display] returns the canned quiz of
    [create_fallback_quiz_data]: 3 MCQs, 2 fill-blanks and 2 short answers,
    7 items. *)
Theorem parse_fallback_when_nothing_extracted (text : string)
  (Hm : extract_mcqs text = []) (Hb : extract_blanks text = [])
  (Hs : extract_short text = NoShort) :
  parse_quiz_for_display text = create_fallback_quiz_data
  /\ length (mcq_questions (parse_quiz_for_display text)) = 3
  /\ length (fill_blanks (parse_quiz_for_display text)) = 2
  /\ short_count (short_answer (parse_quiz_for_display text)) = 2
  /\ length (entries (parse_quiz_for_display text)) = 7.
Proof.
  assert (E : parse_quiz_for_display text = create_fallback_quiz_data).
  { unfold parse_quiz_for_display. simpl. rewrite Hm, Hb, Hs. reflexivity. }
  rewrite E. repeat split; reflexivity.
Qed.

Lemma parse_fallback_when_nothing_extracted_witness :
  extract_mcqs "hello" = [] /\ extract_blanks "hello" = [] /\
  extract_short "hello" = NoShort /\
  parse_quiz_for_display "hello" = create_fallback_quiz_data.
Proof.
  assert (Hm : extract_mcqs "hello" = []) by (vm_compute; reflexivity).
  assert (Hb : extract_blanks "hello" = []) by (vm_compute; reflexivity).
  assert (Hs : extract_short "hello" = NoShort) by (vm_compute; reflexivity).
  split; [exact Hm|]. split; [exact Hb|]. split; [exact Hs|].
  exact (proj1 (parse_fallback_when_nothing_extracted "hello" Hm Hb Hs)).
Defined.

(** C4 (ShortAnswer rule). A short answer is graded correct iff the number
    of whitespace-separated keywords of the lowercased expected answer
    (repetitions counted) that occur in the lowercased submission is at least
    half the number of keywords; with 4 keywords, 2 matches pass and 1 does
    not. *)
Theorem short_answer_threshold (user expected : string) :
  let kws := split (lower expected) in
  let matched := length (filter (fun k => contains k (lower user)) kws) in
  (short_ok user expected = true <-> length kws <= 2 * matched)
  /\ (length kws = 4 -> matched = 2 -> short_ok user expected = true)
  /\ (length kws = 4 -> matched = 1 -> short_ok user expected = false).
Proof.
  intros kws matched.
  assert (E : short_ok user expected = (length kws <=? 2 * matched)).
  { unfold short_ok. rewrite keyword_matches_filter, half_threshold. reflexivity. }
  rewrite E. split; [apply Nat.leb_le|].
  split; intros H4 Hm; rewrite H4, Hm; reflexivity.
Qed.

Lemma short_answer_threshold_witness :
  short_ok "Alpha beta" "alpha beta gamma delta" = true /\
  short_ok "alpha" "alpha beta gamma delta" = false.
Proof.
  split.
  - apply (proj1 (proj2 (short_answer_threshold "Alpha beta" "alpha beta gamma delta")));
      vm_compute; reflexivity.
  - apply (proj2 (proj2 (short_answer_threshold "alpha" "alpha beta gamma delta")));
      vm_compute; reflexivity.
Defined.

(** C5 (two-pass MCQ extraction), counterexample. On
    ["1. What is it? A) x B) y C) z D) w Correct Answer: B"] the strict pass
    finds one MCQ, while the case-insensitive pattern finds none: under
    [re.IGNORECASE] the class [[^A-D]] also excludes the [a] of "What". *)
Lemma mcq_two_pass_differs_from_single_ic :
  extract_mcqs mcq_sample <> map mcq_of_match (mcq_matches_single_ic mcq_sample).
Proof. vm_compute. discriminate. Qed.

(** C5 (two-pass MCQ extraction), as the code has it. The MCQ matches are
    those of the case-sensitive pass when it finds any, and those of the
    case-insensitive pass otherwise; so the result agrees with a single
    case-insensitive pass whenever the case-sensitive pass finds nothing, and
    it is empty exactly when both passes find nothing. *)
Theorem mcq_two_pass_spec (text : string) :
  mcq_matches text =
    match findall false mcq_pattern 6 text with
    | [] => mcq_matches_single_ic text
    | ms => ms
    end
  /\ (findall false mcq_pattern 6 text = [] ->
      extract_mcqs text = map mcq_of_match (mcq_matches_single_ic text))
  /\ (extract_mcqs text = [] <->
      findall false mcq_pattern 6 text = [] /\ mcq_matches_single_ic text = []).
Proof.
  unfold extract_mcqs, mcq_matches, mcq_matches_single_ic, mcq_pattern_flexible.
  destruct (findall false mcq_pattern 6 text) as [|x xs] eqn:E.
  - split; [reflexivity|]. split; [reflexivity|].
    split; [intros H; split; [reflexivity|]; now apply map_eq_nil in H|].
    intros [_ H]. now rewrite H.
  - split; [reflexivity|]. split; [discriminate|].
    split; [discriminate|]. intros [H _]. discriminate.
Qed.

(** C6 (aggregate). [total] counts every item of the three kinds, answered
    or not; [correct] counts the items passing their rule; the percentage is
    [100 * correct / total] when [total > 0] and [0] when [total = 0], a
    guarded case rather than a division. *)
Theorem score_totals_and_percentage (q : QuizData) (a : dict) :
  let r := score q a in
  rep_total r = length (mcq_questions q) + length (fill_blanks q)
                + short_count (short_answer q)
  /\ rep_correct r = length (filter (entry_ok a) (entries q))
  /\ (0 < rep_total r ->
      (rep_percentage r == 100 * inject_Z (Z.of_nat (rep_correct r))
                               / inject_Z (Z.of_nat (rep_total r)))%Q)
  /\ (rep_total r = 0 -> rep_percentage r = 0%Q).
Proof.
  intros r. unfold r. rewrite score_entries. cbn zeta. cbn [rep_total rep_correct rep_percentage].
  split; [apply length_entries|]. split; [reflexivity|].
  split; [apply percentage_of_pos|].
  intros H0. rewrite H0. reflexivity.
Qed.

(** C7 (MultipleChoice rule). An MCQ is graded correct iff the submission
    read under ["mcq_<i>"] (default [""]) is equal, case-sensitively, to
    the stored correct option; with a non-empty correct option, as every
    parsed option is, an unanswered MCQ is graded incorrect. *)
Theorem mcq_grading_rule (answers : dict) (i : nat) (m : MCQ)
  (Hc : mcq_correct m <> EmptyString) :
  (mcq_ok answers i m = true <-> get answers (mcq_key i) "" = mcq_correct m)
  /\ (dict_lookup answers (mcq_key i) = None -> mcq_ok answers i m = false).
Proof.
  unfold mcq_ok. split; [apply String.eqb_eq|].
  intros H. unfold get. rewrite H.
  apply String.eqb_neq. intros E. apply Hc. now symmetry.
Qed.

Lemma mcq_grading_rule_witness :
  mcq_ok [("mcq_0", "b")] 0 (mkMCQ "1. Q" ["x"; "y"; "z"; "w"] "B") = false /\
  mcq_ok [] 0 (mkMCQ "1. Q" ["x"; "y"; "z"; "w"] "B") = false.
Proof.
  split.
  - destruct (mcq_ok [("mcq_0", "b")] 0 (mkMCQ "1. Q" ["x"; "y"; "z"; "w"] "B")) eqn:E;
      [|reflexivity].
    apply (mcq_grading_rule [("mcq_0", "b")] 0 (mkMCQ "1. Q" ["x"; "y"; "z"; "w"] "B"))
      in E; [|discriminate].
    vm_compute in E. discriminate.
  - apply (mcq_grading_rule [] 0 (mkMCQ "1. Q" ["x"; "y"; "z"; "w"] "B"));
      [discriminate|reflexivity].
Defined.

(** C8 (short answers). [parse_quiz_for_display] yields at most two short
    answer items for every text: the short-answer extraction is one
    [re.search] giving no item, one item, or a list of exactly two items
    (further entries are not matched), and the fallback quiz has two. *)
Theorem parse_at_most_two_short (text : string) :
  short_count (short_answer (parse_quiz_for_display text)) <= 2
  /\ match extract_short text with
     | NoShort => True
     | SingleShort _ => True
     | ShortList l => length l = 2
     end.
Proof.
  assert (Hs : match extract_short text with
               | NoShort => True
               | SingleShort _ => True
               | ShortList l => length l = 2
               end).
  { unfold extract_short.
    destruct (search false short_pattern text) as [g|]; [|exact I].
    destruct (group_truthy (group 3 g)); simpl; [reflexivity|exact I]. }
  split; [|exact Hs].
  unfold parse_quiz_for_display.
  destruct (_ && _); [simpl; lia|].
  simpl. destruct (extract_short text); simpl; [lia|lia|rewrite Hs; lia].
Qed.

Example short_sample_third_entry_dropped :
  short_answer (parse_quiz_for_display short_sample) =
  ShortList [mkShort "1. Why?" "because"; mkShort "How?" "so"].
Proof. vm_compute. reflexivity. Qed.

(** C9 (determinism). The report [display_quiz_results] computes is
    [score] of the quiz and of [st.session_state.quiz_answers]: two sessions
    with the same answers give the same report, and the session left behind
    (memory saved, flag set) keeps the answers, so scoring again gives the
    same report. *)
Theorem score_deterministic (q : QuizData) (s1 s2 : Session)
  (Hans : quiz_answers s1 = quiz_answers s2) :
  fst (display_quiz_results q s1) = fst (display_quiz_results q s2)
  /\ fst (display_quiz_results q s1) = score q (quiz_answers s1)
  /\ (forall s', snd (display_quiz_results q s1) = Some s' ->
        fst (display_quiz_results q s') = fst (display_quiz_results q s1)).
Proof.
  rewrite !display_report, Hans.
  split; [reflexivity|]. split; [reflexivity|].
  intros s' Hs'. rewrite display_report.
  apply display_keeps_answers in Hs'. rewrite Hs', Hans. reflexivity.
Qed.

Lemma score_deterministic_witness :
  let s1 := mkSession [("mcq_0", "B")] true false "CV" [] [] in
  let s2 := mkSession [("mcq_0", "B")] false true "Other" [] ["x"] in
  fst (display_quiz_results create_fallback_quiz_data s1) =
  fst (display_quiz_results create_fallback_quiz_data s2).
Proof.
  intros s1 s2.
  apply (proj1 (score_deterministic create_fallback_quiz_data s1 s2 eq_refl)).
Defined.

(** C10 (report invariants). [0 <= correct <= total], the percentage lies
    in [0, 100], and every item contributes either to [correct] or one
    descriptor to the missed items, in item order (MCQs, fill-blanks, short
    answers), so there are [total - correct] descriptors. *)
Theorem score_report_invariants (q : QuizData) (a : dict) :
  let r := score q a in
  rep_correct r <= rep_total r
  /\ (0 <= rep_percentage r <= 100)%Q
  /\ length (rep_missed r) = rep_total r - rep_correct r
  /\ rep_missed r = map entry_descr (filter (fun e => negb (entry_ok a e)) (entries q)).
Proof.
  intros r. unfold r. rewrite score_entries. cbn zeta.
  cbn [rep_total rep_correct rep_percentage rep_missed].
  pose proof (filter_split_length (entry_ok a) (entries q)) as L.
  assert (Hle : length (filter (entry_ok a) (entries q)) <= length (entries q)) by lia.
  split; [exact Hle|]. split; [apply percentage_of_bounds, Hle|].
  split; [rewrite length_map; lia|reflexivity].
Qed.

(* ================================================================== *)
(** * Further properties of the code *)

(** ** Strings *)

Lemma string_length_app (a b : string) :
  String.length (a ++ b) = String.length a + String.length b.
Proof. induction a as [|c a IH]; simpl; [reflexivity | now rewrite IH]. Qed.

Lemma substring_length (s : string) (a b : nat) :
  a + b <= String.length s -> String.length (substring a b s) = b.
Proof.
  revert a b; induction s as [|c s IH]; intros [|a] [|b] H; simpl in *; try lia.
  - rewrite IH; lia.
  - apply IH; lia.
  - apply IH; lia.
Qed.

Lemma substring_whole (s : string) : substring 0 (String.length s) s = s.
Proof. induction s as [|c s IH]; simpl; [reflexivity | now rewrite IH]. Qed.

Lemma substring_split (s : string) (k : nat) :
  substring 0 k s ++ substring k (String.length s - k) s = s.
Proof.
  revert k; induction s as [|c s IH]; intros [|k]; simpl.
  - reflexivity.
  - reflexivity.
  - now rewrite substring_whole.
  - now rewrite IH.
Qed.

Lemma substring_app_l (a b : string) : substring 0 (String.length a) (a ++ b) = a.
Proof. induction a as [|c a IH]; simpl; [destruct b; reflexivity | now rewrite IH]. Qed.

Lemma substring_app_r (a b : string) :
  substring (String.length a) (String.length b) (a ++ b) = b.
Proof. induction a as [|c a IH]; simpl; [apply substring_whole | exact IH]. Qed.

Lemma string_app_nil (s : string) : s ++ "" = s.
Proof. induction s as [|c s IH]; simpl; [reflexivity | now rewrite IH]. Qed.

Lemma lower_app (a b : string) : lower (a ++ b) = lower a ++ lower b.
Proof. induction a as [|c a IH]; simpl; [reflexivity | now rewrite IH]. Qed.

(** ** [extract_key_content] *)

(** A text longer than [max_length >= 2] becomes its first and its last
    [max_length // 2] characters around the truncation marker, so its
    length is [2 * (max_length // 2)] plus the marker's. *)
Theorem extract_key_content_truncated (text : string) (max_length : Z)
  (Hmin : (2 <= max_length)%Z)
  (Hlong : (max_length < Z.of_nat (String.length text))%Z) :
  let h := Z.to_nat (max_length / 2) in
  extract_key_content text max_length
    = substring 0 h text ++ truncation_marker
        ++ substring (String.length text - h) h text
  /\ Z.of_nat (String.length (extract_key_content text max_length))
     = (2 * (max_length / 2) + Z.of_nat (String.length truncation_marker))%Z.
Proof.
  intros h.
  assert (Hh : (0 <= max_length / 2 <= max_length)%Z)
    by (split; [apply Z.div_pos | apply Z.div_le_upper_bound]; lia).
  assert (Hhn : h <= String.length text) by (unfold h; lia).
  assert (E : extract_key_content text max_length
              = substring 0 h text ++ truncation_marker
                  ++ substring (String.length text - h) h text).
  { unfold extract_key_content.
    destruct (Z.of_nat (String.length text) <=? max_length)%Z eqn:E; [lia|].
    unfold slice, slice_index.
    destruct (max_length / 2 <? 0)%Z eqn:E1; [lia|].
    destruct (- (max_length / 2) <? 0)%Z eqn:E2.
    - replace (Nat.min (Z.to_nat (max_length / 2)) (String.length text) - 0) with h by lia.
      replace (Z.to_nat (Z.max 0 (Z.of_nat (String.length text) + - (max_length / 2))))
        with (String.length text - h) by lia.
      replace (String.length text - (String.length text - h)) with h by lia.
      reflexivity.
    - assert (1 <= max_length / 2)%Z by (apply Z.div_le_lower_bound; lia). lia. }
  split; [exact E|].
  rewrite E, !string_length_app, !substring_length by lia.
  unfold h; lia.
Qed.

Theorem extract_key_content_truncated_witness :
  (2 <= 4)%Z /\ (4 < Z.of_nat (String.length "abcdefghij"))%Z /\
  extract_key_content "abcdefghij" 4 = "ab" ++ truncation_marker ++ "ij".
Proof.
  split; [lia|]. split; [simpl; lia|].
  destruct (extract_key_content_truncated "abcdefghij" 4) as [E _]; [lia | simpl; lia |].
  rewrite E. reflexivity.
Defined.

(** With [max_length] 0 or 1, [half_length] is 0 and [text[-0:]] is the
    whole text: the result is the marker followed by the entire text,
    longer than the input. *)
Theorem extract_key_content_tiny_limit (text : string) (max_length : Z)
  (Hmax : (0 <= max_length <= 1)%Z)
  (Hlong : (max_length < Z.of_nat (String.length text))%Z) :
  extract_key_content text max_length = truncation_marker ++ text.
Proof.
  unfold extract_key_content.
  destruct (Z.of_nat (String.length text) <=? max_length)%Z eqn:E; [lia|].
  assert (H0 : (max_length / 2 = 0)%Z) by (apply Z.div_small; lia).
  rewrite H0. unfold slice, slice_index. simpl.
  rewrite Nat.sub_0_r, substring_whole.
  replace (substring 0 0 text) with "" by (destruct text; reflexivity).
  reflexivity.
Qed.

Theorem extract_key_content_tiny_limit_witness :
  extract_key_content "abc" 1 = truncation_marker ++ "abc".
Proof. apply extract_key_content_tiny_limit; simpl; lia. Defined.

(** ** [validate_file_upload] *)

(** [splitext] returns a suffix of the path. *)
Lemma splitext_ext_suffix (p : string) : exists pre, p = pre ++ splitext_ext p.
Proof.
  unfold splitext_ext.
  destruct (rfind "/"%char p <? rfind "."%char p)%Z.
  - destruct (existsb _ _).
    + exists (substring 0 (Z.to_nat (rfind "."%char p)) p).
      symmetry; apply substring_split.
    + exists p; symmetry; apply string_app_nil.
  - exists p; symmetry; apply string_app_nil.
Qed.

(** An accepted file is within the size limit and its lowercased name
    ends in [.pdf] or [.docx]. *)
Theorem validate_file_upload_accepts_only (file : UploadedFile)
  (Hok : validate_file_upload (Some file) = true) :
  file_size file <= max_size
  /\ exists pre, lower (file_name file) = pre ++ ".pdf"
                 \/ lower (file_name file) = pre ++ ".docx".
Proof.
  unfold validate_file_upload in Hok.
  destruct (existsb _ allowed_extensions) eqn:Hext; simpl in Hok; [|discriminate].
  destruct (max_size <? file_size file) eqn:Hs; [discriminate|].
  split; [apply Nat.ltb_ge; exact Hs|].
  destruct (splitext_ext_suffix (file_name file)) as [pre Hp].
  exists (lower pre). rewrite Hp at 1 2. rewrite lower_app.
  apply existsb_exists in Hext as [x [Hx Heq]].
  apply String.eqb_eq in Heq. rewrite Heq.
  simpl in Hx. destruct Hx as [<-|[<-|[]]]; [left|right]; reflexivity.
Qed.

Theorem validate_file_upload_accepts_only_witness :
  validate_file_upload (Some (mkFile "Notes.PDF" 100)) = true
  /\ 100 <= max_size.
Proof.
  split; [reflexivity|].
  exact (proj1 (validate_file_upload_accepts_only (mkFile "Notes.PDF" 100) eq_refl)).
Defined.

Lemma rfind_from_app (c : ascii) (a b : string) (i : nat) (best : Z) :
  rfind_from c (a ++ b) i best
  = rfind_from c b (i + String.length a) (rfind_from c a i best).
Proof.
  revert i best; induction a as [|x a IH]; intros i best; simpl.
  - now rewrite Nat.add_0_r.
  - rewrite IH. now replace (S i + String.length a) with (i + S (String.length a)) by lia.
Qed.

Lemma rfind_from_absent (c : ascii) (s : string) (i : nat) (best : Z) :
  chars_in s c = false -> rfind_from c s i best = best.
Proof.
  unfold chars_in. revert i best; induction s as [|x s IH]; intros i best H; simpl in *.
  - reflexivity.
  - apply orb_false_iff in H as [H1 H2].
    rewrite Ascii.eqb_sym, H1. apply IH, H2.
Qed.

(** A name [base ++ "." ++ e] whose extension [e] has no dot or slash and
    is allowed: it passes exactly when [base] has a character other than a
    dot and the size is within the limit. *)
Theorem validate_file_upload_by_name (base e : string) (size : nat)
  (Hbase : chars_in base "/"%char = false)
  (Hdot : chars_in e "."%char = false)
  (Hslash : chars_in e "/"%char = false)
  (Hext : In (lower (String "."%char e)) allowed_extensions) :
  validate_file_upload (Some (mkFile (base ++ String "."%char e) size))
  = existsb (fun x => negb (is_dot x)) (list_ascii_of_string base)
    && (size <=? max_size).
Proof.
  unfold validate_file_upload, splitext_ext; cbn [file_name file_size].
  assert (Hsep : rfind "/"%char (base ++ String "."%char e) = (-1)%Z).
  { unfold rfind. rewrite rfind_from_app, (rfind_from_absent _ base) by exact Hbase.
    simpl. apply rfind_from_absent, Hslash. }
  assert (Hd : rfind "."%char (base ++ String "."%char e) = Z.of_nat (String.length base)).
  { unfold rfind. rewrite rfind_from_app. simpl.
    apply rfind_from_absent, Hdot. }
  rewrite Hsep, Hd.
  replace (-1 <? Z.of_nat (String.length base))%Z with true by lia.
  replace (Z.to_nat (-1 + 1)) with 0 by reflexivity.
  replace (Z.to_nat (Z.of_nat (String.length base) - (-1 + 1))) with (String.length base) by lia.
  rewrite substring_app_l, Nat2Z.id.
  destruct (existsb _ (list_ascii_of_string base)); simpl.
  - replace (String.length (base ++ String "."%char e) - String.length base)
      with (String.length (String "."%char e)) by (rewrite string_length_app; lia).
    rewrite substring_app_r.
    assert (Hin : existsb (String.eqb (lower (String "."%char e))) allowed_extensions = true).
    { apply existsb_exists. exists (lower (String "."%char e)).
      split; [exact Hext | apply String.eqb_refl]. }
    simpl in Hin |- *. rewrite Hin. simpl.
    destruct (max_size <? size) eqn:Hs; symmetry.
    + apply Nat.leb_gt, Nat.ltb_lt, Hs.
    + apply Nat.leb_le, Nat.ltb_ge, Hs.
  - reflexivity.
Qed.

Theorem validate_file_upload_by_name_witness :
  validate_file_upload (Some (mkFile ("notes" ++ String "."%char "PDF") 2048)) = true
  /\ validate_file_upload (Some (mkFile (".." ++ String "."%char "pdf") 2048)) = false.
Proof.
  split.
  - rewrite (validate_file_upload_by_name "notes" "PDF" 2048); try reflexivity.
    simpl; auto.
  - rewrite (validate_file_upload_by_name ".." "pdf" 2048); try reflexivity.
    simpl; auto.
Defined.

Lemma existsb_eqb_In (x : string) (l : list string) :
  existsb (String.eqb x) l = true <-> In x l.
Proof.
  rewrite existsb_exists. split.
  - intros [y [Hy E]]. apply String.eqb_eq in E. now subst.
  - intros H. exists x. split; [exact H | apply String.eqb_refl].
Qed.

Lemma existsb_eqb_notIn (x : string) (l : list string) :
  existsb (String.eqb x) l = false <-> ~ In x l.
Proof.
  rewrite <- existsb_eqb_In. destruct (existsb _ _); split; congruence.
Qed.

Lemma NoDup_snoc {A} (l : list A) (x : A) :
  NoDup l -> ~ In x l -> NoDup (l ++ [x]).
Proof.
  intros H Hx. apply NoDup_app; auto using NoDup_cons, NoDup_nil.
  intros a Ha [<-|[]]. contradiction.
Qed.

Lemma find_app {A} (f : A -> bool) (l1 l2 : list A) :
  find f (app l1 l2) = match find f l1 with Some x => Some x | None => find f l2 end.
Proof. induction l1 as [|x l1 IH]; simpl; [reflexivity | destruct (f x); auto]. Qed.

(** ** [add_topic_explanation] *)

Lemma update_topic_keys (topic explanation now : string) (l : list TopicEntry) :
  map topic_key (update_topic topic explanation now l) = map topic_key l.
Proof.
  induction l as [|t l IH]; simpl; [reflexivity|].
  destruct (String.eqb _ _); simpl; [reflexivity | now rewrite IH].
Qed.

Lemma update_topic_find (topic explanation now : string) (l : list TopicEntry) :
  find (fun t => String.eqb (topic_key t) (lower topic)) (update_topic topic explanation now l)
  = option_map (fun t => mkTopic (t_topic t) explanation now)
      (find (fun t => String.eqb (topic_key t) (lower topic)) l).
Proof.
  unfold topic_key. induction l as [|t l IH]; simpl; [reflexivity|].
  destruct (String.eqb (lower (t_topic t)) (lower topic)) eqn:E; simpl; rewrite ?E;
    [reflexivity | exact IH].
Qed.

Lemma find_key_none (k : string) (l : list TopicEntry) :
  ~ In k (map topic_key l) ->
  find (fun t => String.eqb (topic_key t) k) l = None.
Proof.
  induction l as [|t l IH]; simpl; intros H; [reflexivity|].
  destruct (String.eqb (topic_key t) k) eqn:E.
  - apply String.eqb_eq in E. tauto.
  - tauto.
Qed.

Lemma find_key_some (k : string) (l : list TopicEntry) :
  In k (map topic_key l) ->
  exists t, find (fun t => String.eqb (topic_key t) k) l = Some t.
Proof.
  induction l as [|t l IH]; simpl; intros H; [contradiction|].
  destruct (String.eqb (topic_key t) k) eqn:E; [now exists t|].
  apply IH. destruct H as [H|H]; [|exact H].
  rewrite H, String.eqb_refl in E. discriminate.
Qed.

(** [add_topic_explanation] keeps the lowercased topics distinct. *)
Theorem add_topic_explanation_keys_distinct (topic explanation now : string)
  (l : list TopicEntry) (Hl : NoDup (map topic_key l)) :
  NoDup (map topic_key (add_topic_explanation topic explanation now l)).
Proof.
  unfold add_topic_explanation.
  destruct (existsb (String.eqb (lower topic)) (map (fun t => lower (t_topic t)) l)) eqn:E;
    simpl.
  - rewrite update_topic_keys. exact Hl.
  - rewrite map_app. apply NoDup_snoc; [exact Hl|].
    apply existsb_eqb_notIn in E. exact E.
Qed.

Theorem add_topic_explanation_keys_distinct_witness :
  NoDup (map topic_key [mkTopic "Python" "a" "t0"])
  /\ NoDup (map topic_key (add_topic_explanation "python" "b" "t1"
                             [mkTopic "Python" "a" "t0"])).
Proof.
  assert (H : NoDup (map topic_key [mkTopic "Python" "a" "t0"]))
    by (simpl; constructor; [simpl; tauto | constructor]).
  split; [exact H | exact (add_topic_explanation_keys_distinct _ _ _ _ H)].
Defined.

(** After [add_topic_explanation], a case-insensitive lookup of the topic
    finds the new explanation; the topic list grows by one entry exactly
    when the topic was new. *)
Theorem add_topic_explanation_lookup (topic explanation now : string)
  (l : list TopicEntry) :
  let l' := add_topic_explanation topic explanation now l in
  find (fun t => String.eqb (topic_key t) (lower topic)) l'
    = Some (match find (fun t => String.eqb (topic_key t) (lower topic)) l with
            | Some t => mkTopic (t_topic t) explanation now
            | None => mkTopic topic explanation now
            end)
  /\ map topic_key l'
     = (if existsb (String.eqb (lower topic)) (map topic_key l)
        then map topic_key l else app (map topic_key l) [lower topic]).
Proof.
  intros l'. unfold l', add_topic_explanation.
  change (map (fun t => lower (t_topic t)) l) with (map topic_key l).
  destruct (existsb (String.eqb (lower topic)) (map topic_key l)) eqn:E; simpl.
  - apply existsb_eqb_In in E.
    destruct (find_key_some _ _ E) as [t Ht].
    rewrite update_topic_find, Ht, update_topic_keys. split; reflexivity.
  - apply existsb_eqb_notIn in E.
    rewrite find_app, (find_key_none _ _ E). simpl.
    unfold topic_key at 1; simpl. rewrite String.eqb_refl, map_app.
    split; reflexivity.
Qed.

(** ** The deduplication loop [keep_first_by] *)

Section KeepFirst.
Context {A : Type} (key : A -> string).

Lemma keep_first_by_spec (seen : list string) (l : list A) :
  NoDup (map key (keep_first_by key seen l))
  /\ (forall x, In x (map key (keep_first_by key seen l)) -> ~ In x seen)
  /\ incl (keep_first_by key seen l) l.
Proof.
  revert seen; induction l as [|t l IH]; intros seen; simpl.
  - split; [constructor|]. split; [tauto | intros a []].
  - destruct (existsb (String.eqb (key t)) seen) eqn:E.
    + destruct (IH seen) as [H1 [H2 H3]].
      split; [exact H1|]. split; [exact H2|]. intros a Ha; right; auto.
    + apply existsb_eqb_notIn in E.
      destruct (IH (key t :: seen)) as [H1 [H2 H3]]. simpl.
      split; [|split].
      * constructor; [|exact H1]. intros Hin. apply (H2 _ Hin). left; reflexivity.
      * intros x [<-|Hx]; [exact E|]. intros Hs. apply (H2 _ Hx). right; exact Hs.
      * intros a [<-|Ha]; [left; reflexivity | right; auto].
Qed.


Lemma keep_first_by_find (seen : list string) (l : list A) (k : string) :
  ~ In k seen ->
  find (fun a => String.eqb (key a) k) (keep_first_by key seen l)
  = find (fun a => String.eqb (key a) k) l.
Proof.
  revert seen; induction l as [|t l IH]; intros seen Hk; simpl; [reflexivity|].
  destruct (existsb (String.eqb (key t)) seen) eqn:E.
  - apply existsb_eqb_In in E.
    destruct (String.eqb (key t) k) eqn:Ek.
    + apply String.eqb_eq in Ek. subst. contradiction.
    + apply IH, Hk.
  - simpl. destruct (String.eqb (key t) k) eqn:Ek; [reflexivity|].
    apply IH. intros [H|H]; [|contradiction].
    subst. rewrite String.eqb_refl in Ek. discriminate.
Qed.

Lemma find_unique_key (l : list A) (k : string) (a : A) :
  NoDup (map key l) ->
  (find (fun a => String.eqb (key a) k) l = Some a <-> In a l /\ key a = k).
Proof.
  intros Hd. split.
  - intros H. apply find_some in H as [Hin Hk]. apply String.eqb_eq in Hk. auto.
  - intros [Hin Hk]. induction l as [|b l IH]; [contradiction|].
    inversion Hd as [|? ? Hn Hd']; subst. simpl.
    destruct (String.eqb (key b) (key a)) eqn:E.
    + apply String.eqb_eq in E. destruct Hin as [->|Hin]; [reflexivity|].
      exfalso. apply Hn. rewrite E. apply in_map, Hin.
    + destruct Hin as [->|Hin]; [rewrite String.eqb_refl in E; discriminate|].
      apply IH; auto.
Qed.

Lemma find_rev_unique_key (l : list A) (k : string) :
  NoDup (map key l) ->
  find (fun a => String.eqb (key a) k) (rev l) = find (fun a => String.eqb (key a) k) l.
Proof.
  intros Hd.
  assert (Hd' : NoDup (map key (rev l))) by (rewrite map_rev; apply NoDup_rev, Hd).
  destruct (find _ (rev l)) as [b|] eqn:Hb.
  - apply (find_unique_key _ _ _ Hd') in Hb as [Hin Hk].
    symmetry. apply (find_unique_key _ _ _ Hd). split; [apply in_rev, Hin | exact Hk].
  - destruct (find _ l) as [a|] eqn:Ha; [|reflexivity].
    apply (find_unique_key _ _ _ Hd) in Ha as [Hin Hk].
    assert (H : find (fun a => String.eqb (key a) k) (rev l) = Some a)
      by (apply (find_unique_key _ _ _ Hd'); split; [apply in_rev in Hin |]; auto).
    congruence.
Qed.

End KeepFirst.


(** ** [get_learning_summary] *)


(** ** [clear_duplicates] *)

(** After [clear_duplicates] the quiz history holds one result per
    lowercased topic, each taken from the history, and it is the latest
    result of that topic. *)
Theorem clear_duplicate_quizzes_latest (quiz_scores : list QuizResult) :
  let r := clear_duplicate_quizzes quiz_scores in
  NoDup (map quiz_key r) /\ incl r quiz_scores
  /\ forall k, find (fun q => String.eqb (quiz_key q) k) r
               = find (fun q => String.eqb (quiz_key q) k) (rev quiz_scores).
Proof.
  intros r. unfold r, clear_duplicate_quizzes.
  destruct (keep_first_by_spec quiz_key [] (rev quiz_scores)) as [H1 [_ H3]].
  split; [rewrite map_rev; apply NoDup_rev, H1|]. split.
  - intros a Ha. apply in_rev, H3, in_rev in Ha. exact Ha.
  - intros k. rewrite find_rev_unique_key by exact H1.
    apply keep_first_by_find. intros [].
Qed.

(** ** [add_quiz_result] *)




(** ** The matcher only succeeds through its continuation *)

Lemma star_cont (greedy : bool) (mr : string -> groups -> cont -> result)
  (Hmr : forall s g k res, mr s g k = Some res -> exists s' g', k s' g' = Some res)
  (fuel : nat) (s : string) (g : groups) (k : cont) (res : string * groups) :
  star greedy mr fuel s g k = Some res -> exists s' g', k s' g' = Some res.
Proof.
  revert s g; induction fuel as [|f IH]; intros s g H; simpl in H; [eauto|].
  destruct greedy.
  - destruct (mr s g _) as [r0|] eqn:E.
    + injection H as ->. apply Hmr in E as [s' [g' Hk]].
      destruct (String.length s' <? String.length s); [exact (IH _ _ Hk) | discriminate].
    + eauto.
  - destruct (k s g) eqn:E.
    + injection H as ->. eauto.
    + apply Hmr in H as [s' [g' Hk]].
      destruct (String.length s' <? String.length s); [exact (IH _ _ Hk) | discriminate].
Qed.

Lemma m_cont (ic : bool) (r : regex) :
  forall s g k res, m ic r s g k = Some res -> exists s' g', k s' g' = Some res.
Proof.
  induction r as [| c | neg mem | r1 IH1 r2 IH2 | greedy min1 r1 IH | r1 IH | n r1 IH];
    intros s g k res H; simpl in H.
  - eauto.
  - destruct s as [|x s]; [discriminate|]. destruct (lit_matches ic c x); [eauto | discriminate].
  - destruct s as [|x s]; [discriminate|].
    destruct (set_matches ic neg mem x); [eauto | discriminate].
  - apply IH1 in H as [s1 [g1 H]]. exact (IH2 _ _ _ _ H).
  - destruct min1.
    + apply IH in H as [s1 [g1 H]]. exact (star_cont _ _ IH _ _ _ _ _ H).
    + exact (star_cont _ _ IH _ _ _ _ _ H).
  - destruct (m ic r1 s g k) eqn:E.
    + injection H as ->. exact (IH _ _ _ _ E).
    + eauto.
  - apply IH in H as [s1 [g1 H]]. eauto.
Qed.

Lemma cat_snoc_cont (ic : bool) (rs : list regex) (last : regex) :
  forall s g k res, m ic (cat (app rs [last])) s g k = Some res ->
  exists s0 g0, m ic last s0 g0 (fun s1 g1 => k s1 g1) = Some res.
Proof.
  induction rs as [|r rs IH]; intros s g k res H; simpl in H; [eauto|].
  apply m_cont in H as [s1 [g1 H]]. exact (IH _ _ _ _ H).
Qed.

Lemma mcq_pattern_last :
  exists rs, mcq_pattern = cat (app rs [RGroup 6 (RSet false A_to_D)]).
Proof.
  unfold mcq_pattern.
  match goal with |- exists rs, cat ?L = _ => exists (removelast L) end.
  reflexivity.
Qed.

Lemma mcq_match_answer (ic : bool) (s s' : string) (g : groups) :
  match_at ic mcq_pattern s = Some (s', g) ->
  exists x, group 6 g = Some (String x "") /\ set_matches ic false A_to_D x = true.
Proof.
  unfold match_at. destruct mcq_pattern_last as [rs ->]. intros H.
  apply cat_snoc_cont in H as [s0 [g0 H]]. cbn [m] in H.
  destruct s0 as [|x t]; [discriminate|].
  destruct (set_matches ic false A_to_D x) eqn:Ex; [|discriminate].
  injection H as _ <-. exists x. split; [|exact Ex].
  replace (match String.length t with
           | 0 => S (String.length t)
           | S l => String.length t - l
           end) with 1 by (destruct (String.length t); lia).
  simpl. destruct t; reflexivity.
Qed.

Lemma findall_rows (ic : bool) (r : regex) (n fuel : nat) (s : string) (rw : list string) :
  In rw (findall_go ic r n fuel s) ->
  exists s0 s' g, match_at ic r s0 = Some (s', g) /\ rw = row n g.
Proof.
  revert s; induction fuel as [|f IH]; intros s H; simpl in H; [contradiction|].
  assert (Hskip : In rw (match s with EmptyString => [] | String _ t => findall_go ic r n f t end)
                  -> exists s0 s' g, match_at ic r s0 = Some (s', g) /\ rw = row n g).
  { destruct s as [|c t]; [intros []|apply IH]. }
  destruct (match_at ic r s) as [[s' g]|] eqn:E; [|exact (Hskip H)].
  destruct H as [<-|H]; [eauto|].
  destruct (String.length s' <? String.length s); [exact (IH _ H) | exact (Hskip H)].
Qed.

Lemma answer_letter_b (ic : bool) (x : ascii) :
  set_matches ic false A_to_D x = true ->
  is_space x = false
  /\ existsb (String.eqb (String x "")) ["A"; "B"; "C"; "D"; "a"; "b"; "c"; "d"] = true.
Proof.
  destruct ic, x as [[] [] [] [] [] [] [] []]; vm_compute; intros H;
    solve [discriminate H | split; reflexivity].
Qed.

Lemma strip_single (x : ascii) : is_space x = false -> strip (String x "") = String x "".
Proof. intros H. unfold strip. simpl. rewrite H. simpl. rewrite H. reflexivity. Qed.

(** Every MCQ the parser returns has four options, and its correct option
    is one letter A-D in either case. *)
Theorem parse_mcq_shape (quiz_text : string) :
  Forall (fun q => length (mcq_options q) = 4
                   /\ In (mcq_correct q) ["A"; "B"; "C"; "D"; "a"; "b"; "c"; "d"])
         (mcq_questions (parse_quiz_for_display quiz_text)).
Proof.
  unfold parse_quiz_for_display.
  destruct (_ && _ && _).
  - repeat constructor; simpl; tauto.
  - cbn [mcq_questions]. unfold extract_mcqs. apply Forall_forall.
    intros q Hq. apply in_map_iff in Hq as [rw [<- Hrw]].
    assert (Hm : exists ic, In rw (findall ic mcq_pattern 6 quiz_text)).
    { unfold mcq_matches, mcq_pattern_flexible in Hrw.
      destruct (findall false mcq_pattern 6 quiz_text) eqn:E; eauto.
      exists false. rewrite E. exact Hrw. }
    destruct Hm as [ic Hm].
    apply findall_rows in Hm as [s0 [s' [g [Hmatch ->]]]].
    apply mcq_match_answer in Hmatch as [x [Hg Hx]].
    apply answer_letter_b in Hx as [Hsp Hin].
    split; [reflexivity|].
    unfold mcq_of_match, row. simpl. rewrite Hg, strip_single by exact Hsp.
    apply existsb_exists in Hin as [y [Hy E]]. apply String.eqb_eq in E.
    rewrite E. exact Hy.
Qed.

(** ** From the parser to the memory update *)



(** A quiz with no items makes the memory update raise
    [ZeroDivisionError] once chains are loaded and it is not yet saved. *)
Theorem display_empty_quiz_raises (q : QuizData) (sess : Session)
  (Hq : entries q = []) (Hc : has_chains sess = true)
  (Hs : quiz_saved_to_memory sess = false) :
  snd (display_quiz_results q sess) = None.
Proof.
  unfold display_quiz_results. rewrite Hc, Hs. cbn [andb negb].
  unfold add_quiz_result. rewrite score_entries, Hq. reflexivity.
Qed.

Theorem display_empty_quiz_raises_witness :
  snd (display_quiz_results (mkQuiz [] [] NoShort "")
         (mkSession [] true false "Topic" [] [])) = None.
Proof. apply display_empty_quiz_raises; reflexivity. Defined.

(** The fallback quiz text of [_format_fallback_quiz] is not read back as
    written by [parse_quiz_for_display]: no MCQ, a single fill-blank (the
    second is lost) and no short answers. *)
Theorem parse_format_fallback_quiz (fallback_response topic : string) :
  let q := parse_quiz_for_display (format_fallback_quiz fallback_response topic) in
  mcq_questions q = [] /\ map blank_answer (fill_blanks q) = ["resume"]
  /\ short_answer q = NoShort.
Proof. unfold format_fallback_quiz. vm_compute. auto. Qed.

(** ** Answer collection *)

Lemma dict_lookup_set (d : dict) (k v k' : string) :
  dict_lookup (dict_set d k v) k'
  = if String.eqb k' k then Some v else dict_lookup d k'.
Proof.
  induction d as [|[k0 v0] d IH]; simpl.
  - destruct (String.eqb k' k); reflexivity.
  - destruct (String.eqb k k0) eqn:E; simpl.
    + apply String.eqb_eq in E. subst k0.
      destruct (String.eqb k' k); reflexivity.
    + destruct (String.eqb k' k0) eqn:E0; rewrite ?IH.
      * apply String.eqb_eq in E0. subst k0.
        rewrite String.eqb_sym, E. reflexivity.
      * reflexivity.
Qed.

Lemma length_dict_set (d : dict) (k v : string) : length d <= length (dict_set d k v).
Proof.
  induction d as [|[k0 v0] d IH]; simpl; [lia|].
  destruct (String.eqb k k0); simpl; lia.
Qed.

Lemma str_of_nat_inj (i j : nat) : str_of_nat i = str_of_nat j -> i = j.
Proof.
  unfold str_of_nat. intros H.
  assert (E : NilEmpty.uint_of_string (NilEmpty.string_of_uint (Nat.to_uint i))
              = NilEmpty.uint_of_string (NilEmpty.string_of_uint (Nat.to_uint j)))
    by now rewrite H.
  rewrite !NilEmpty.usu in E. injection E as E.
  rewrite <- (DecimalNat.Unsigned.of_to i), <- (DecimalNat.Unsigned.of_to j), E.
  reflexivity.
Qed.

Lemma mcq_key_inj (i j : nat) : mcq_key i = mcq_key j -> i = j.
Proof. unfold mcq_key. simpl. intros H. injection H as H. apply str_of_nat_inj, H. Qed.

Lemma blank_key_inj (i j : nat) : blank_key i = blank_key j -> i = j.
Proof. unfold blank_key. simpl. intros H. injection H as H. apply str_of_nat_inj, H. Qed.

Lemma store_text_other (key answer k : string) (d : dict) :
  k <> key -> dict_lookup (store_text key answer d) k = dict_lookup d k.
Proof.
  intros H. unfold store_text. destruct answer; [reflexivity|].
  rewrite dict_lookup_set. destruct (String.eqb k key) eqn:E; [|reflexivity].
  apply String.eqb_eq in E. contradiction.
Qed.

Lemma store_texts_other (keyf : nat -> string) (inputs : list string) (i n : nat)
  (d : dict) (k : string) :
  (forall j, i <= j -> k <> keyf j) ->
  dict_lookup (store_texts keyf inputs i n d) k = dict_lookup d k.
Proof.
  revert i d; induction n as [|n IH]; intros i d H; simpl; [reflexivity|].
  rewrite IH by (intros j Hj; apply H; lia). apply store_text_other, H, le_n.
Qed.

Lemma store_mcqs_other (choices : list nat) (i : nat) (l : list MCQ) (d : dict) (k : string) :
  (forall j, i <= j -> k <> mcq_key j) ->
  dict_lookup (store_mcqs choices i l d) k = dict_lookup d k.
Proof.
  revert i d; induction l as [|q l IH]; intros i d H; simpl; [reflexivity|].
  rewrite IH by (intros j Hj; apply H; lia).
  destruct (nth_error _ _) as [[|c s]|]; try reflexivity.
  rewrite dict_lookup_set. destruct (String.eqb k (mcq_key i)) eqn:E; [|reflexivity].
  apply String.eqb_eq in E. exfalso. exact (H i (le_n i) E).
Qed.

Lemma store_answers_mcq_keys (q : QuizData) (inp : FormInput) (d : dict) (i : nat) :
  dict_lookup (store_answers q inp d) (mcq_key i)
  = dict_lookup (store_mcqs (mcq_choice inp) 0 (mcq_questions q) d) (mcq_key i).
Proof.
  unfold store_answers.
  assert (Hb : forall j, 0 <= j -> mcq_key i <> blank_key j) by discriminate.
  assert (Hs : forall j, 0 <= j -> mcq_key i <> short_key j) by discriminate.
  assert (H1 : mcq_key i <> single_short_key) by discriminate.
  destruct (short_truthy (short_answer q)); [destruct (short_answer q)|].
  - rewrite store_texts_other by exact Hb. reflexivity.
  - rewrite store_text_other by exact H1. rewrite store_texts_other by exact Hb. reflexivity.
  - rewrite !store_texts_other by assumption. reflexivity.
  - rewrite store_texts_other by exact Hb. reflexivity.
Qed.

Lemma option_labels_nth (k j : nat) (opts : list string) :
  nth_error (option_labels k opts) j = option_map (option_label (k + j)) (nth_error opts j).
Proof.
  revert k j; induction opts as [|o opts IH]; intros k [|j]; simpl;
    rewrite ?Nat.add_0_r; try reflexivity.
  rewrite IH. f_equal. f_equal. lia.
Qed.

Lemma store_mcqs_at (choices : list nat) (l : list MCQ) (d : dict) :
  forall i j q, nth_error l j = Some q ->
  nth (i + j) choices 0 < length (mcq_options q) ->
  dict_lookup (store_mcqs choices i l d) (mcq_key (i + j))
  = Some (String (ascii_of_nat (65 + nth (i + j) choices 0)) "").
Proof.
  revert d; induction l as [|q0 l IH]; intros d i j q Hj Hlt; [destruct j; discriminate|].
  simpl. destruct j as [|j].
  - injection Hj as ->. rewrite Nat.add_0_r in *.
    rewrite store_mcqs_other.
    + rewrite option_labels_nth.
      destruct (nth_error (mcq_options q) (nth i choices 0)) eqn:E.
      * simpl. rewrite dict_lookup_set, String.eqb_refl. reflexivity.
      * apply nth_error_None in E. lia.
    + intros j' Hj' Hk. apply mcq_key_inj in Hk. lia.
  - replace (i + S j) with (S i + j) in * by lia. apply (IH _ _ _ _ Hj Hlt).
Qed.

(** The MCQ answers [display_quiz_with_answers] stores: the letter of the
    option selected in each radio, under ["mcq_<i>"]. As a radio always has
    a selection, one MCQ with options is enough for the submit button to be
    accepted. *)
Theorem store_answers_mcq (q : QuizData) (inp : FormInput) (d : dict) (i : nat)
  (m : MCQ) (Hm : nth_error (mcq_questions q) i = Some m)
  (Hsel : nth i (mcq_choice inp) 0 < length (mcq_options m)) :
  dict_lookup (store_answers q inp d) (mcq_key i)
    = Some (String (ascii_of_nat (65 + nth i (mcq_choice inp) 0)) "")
  /\ submit_allowed (store_answers q inp d) = true.
Proof.
  assert (H : dict_lookup (store_answers q inp d) (mcq_key i)
              = Some (String (ascii_of_nat (65 + nth i (mcq_choice inp) 0)) "")).
  { rewrite store_answers_mcq_keys. exact (store_mcqs_at _ _ d 0 i m Hm Hsel). }
  split; [exact H|].
  unfold submit_allowed. destruct (store_answers q inp d); [discriminate|].
  reflexivity.
Qed.

Theorem store_answers_mcq_witness :
  dict_lookup (store_answers create_fallback_quiz_data (mkForm [] [] [] "") [])
              (mcq_key 0) = Some "A"
  /\ submit_allowed (store_answers create_fallback_quiz_data (mkForm [] [] [] "") [])
     = true.
Proof.
  exact (store_answers_mcq create_fallback_quiz_data (mkForm [] [] [] "") [] 0 _
           eq_refl ltac:(simpl; lia)).
Defined.

Lemma store_text_at (key answer : string) (d : dict) :
  dict_lookup (store_text key answer d) key
  = match answer with EmptyString => dict_lookup d key | _ => Some (strip answer) end.
Proof.
  unfold store_text. destruct answer; [reflexivity|].
  rewrite dict_lookup_set, String.eqb_refl. reflexivity.
Qed.

Lemma store_texts_at (keyf : nat -> string)
  (Hinj : forall a b, keyf a = keyf b -> a = b) (inputs : list string) (n : nat) :
  forall i j d, j < n ->
  dict_lookup (store_texts keyf inputs i n d) (keyf (i + j))
  = match nth (i + j) inputs "" with
    | EmptyString => dict_lookup d (keyf (i + j))
    | a => Some (strip a)
    end.
Proof.
  induction n as [|n IH]; intros i j d Hj; [lia|]. simpl.
  destruct j as [|j].
  - rewrite Nat.add_0_r. rewrite store_texts_other.
    + rewrite store_text_at. destruct (nth i inputs ""); reflexivity.
    + intros j' Hj' Hk. apply Hinj in Hk. lia.
  - replace (i + S j) with (S i + j) by lia. rewrite IH by lia.
    destruct (nth (S i + j) inputs ""); [|reflexivity].
    apply store_text_other. intros Hk. apply Hinj in Hk. lia.
Qed.

(** A fill-blank answer is stored stripped under ["blank_<i>"]; an empty
    text input leaves the answer already in the session. A whitespace-only
    input is stored as [""]. *)
Theorem store_answers_blank (q : QuizData) (inp : FormInput) (d : dict) (i : nat)
  (Hi : i < length (fill_blanks q)) :
  dict_lookup (store_answers q inp d) (blank_key i)
  = match nth i (blank_input inp) "" with
    | EmptyString => dict_lookup d (blank_key i)
    | a => Some (strip a)
    end.
Proof.
  assert (E : dict_lookup (store_answers q inp d) (blank_key i)
              = dict_lookup (store_texts blank_key (blank_input inp) 0
                   (length (fill_blanks q))
                   (store_mcqs (mcq_choice inp) 0 (mcq_questions q) d)) (blank_key i)).
  { unfold store_answers.
    assert (Hs : forall j, 0 <= j -> blank_key i <> short_key j) by discriminate.
    assert (H1 : blank_key i <> single_short_key) by discriminate.
    destruct (short_truthy (short_answer q)); [destruct (short_answer q)|].
    - reflexivity.
    - rewrite store_text_other by exact H1. reflexivity.
    - rewrite store_texts_other by exact Hs. reflexivity.
    - reflexivity. }
  rewrite E. rewrite (store_texts_at blank_key blank_key_inj _ _ 0 i) by exact Hi.
  simpl. destruct (nth i (blank_input inp) ""); [|reflexivity].
  apply store_mcqs_other. discriminate.
Qed.

Theorem store_answers_blank_witness :
  dict_lookup (store_answers create_fallback_quiz_data (mkForm [] ["  "] [] "") [])
              (blank_key 0) = Some "".
Proof.
  exact (store_answers_blank create_fallback_quiz_data (mkForm [] ["  "] [] "") [] 0
           ltac:(simpl; lia)).
Defined.

Lemma dict_set_keeps (d : dict) (k v k' : string) :
  dict_lookup d k' <> None -> dict_lookup (dict_set d k v) k' <> None.
Proof. rewrite dict_lookup_set. destruct (String.eqb k' k); [discriminate | auto]. Qed.

Lemma store_text_keeps (key answer : string) (d : dict) (k : string) :
  dict_lookup d k <> None -> dict_lookup (store_text key answer d) k <> None.
Proof. unfold store_text. destruct answer; [auto | apply dict_set_keeps]. Qed.

Lemma store_texts_keeps (keyf : nat -> string) (inputs : list string) (i n : nat)
  (d : dict) (k : string) :
  dict_lookup d k <> None -> dict_lookup (store_texts keyf inputs i n d) k <> None.
Proof.
  revert i d; induction n as [|n IH]; intros i d H; simpl; [exact H|].
  apply IH, store_text_keeps, H.
Qed.

Lemma store_mcqs_keeps (choices : list nat) (i : nat) (l : list MCQ) (d : dict) (k : string) :
  dict_lookup d k <> None -> dict_lookup (store_mcqs choices i l d) k <> None.
Proof.
  revert i d; induction l as [|q l IH]; intros i d H; simpl; [exact H|].
  apply IH. destruct (nth_error _ _) as [[|c s]|]; auto using dict_set_keeps.
Qed.

(** A rerun of the quiz form never drops a stored answer: a key present
    before is present after, so once the submit check passes it keeps
    passing. *)
Theorem store_answers_keeps_answers (q : QuizData) (inp : FormInput) (d : dict) :
  (forall k, dict_lookup d k <> None -> dict_lookup (store_answers q inp d) k <> None)
  /\ (submit_allowed d = true -> submit_allowed (store_answers q inp d) = true).
Proof.
  assert (H : forall k, dict_lookup d k <> None ->
                        dict_lookup (store_answers q inp d) k <> None).
  { intros k Hk. unfold store_answers.
    pose proof (store_texts_keeps blank_key (blank_input inp) 0 (length (fill_blanks q)) _ k
                  (store_mcqs_keeps (mcq_choice inp) 0 (mcq_questions q) d k Hk)) as H0.
    destruct (short_truthy (short_answer q)); [destruct (short_answer q)|];
      auto using store_text_keeps, store_texts_keeps. }
  split; [exact H|].
  unfold submit_allowed. destruct d as [|[k v] d]; [discriminate|]. intros _.
  assert (Hk : dict_lookup ((k, v) :: d) k <> None)
    by (simpl; rewrite String.eqb_refl; discriminate).
  apply H in Hk. destruct (store_answers q inp ((k, v) :: d)); [contradiction | reflexivity].
Qed.

Lemma string_app_assoc (a b c : string) : a ++ b ++ c = (a ++ b) ++ c.
Proof. induction a as [|x a IH]; simpl; [reflexivity | now rewrite IH]. Qed.

Lemma split_go_words (s : string) :
  no_space (fst (split_go s)) /\ Forall (fun w => w <> "" /\ no_space w) (snd (split_go s)).
Proof.
  unfold no_space.
  induction s as [|c s IH]; simpl; [split; [reflexivity | constructor]|].
  destruct (split_go s) as [w ws]; simpl in *. destruct IH as [Hw Hws].
  destruct (is_space c) eqn:E; simpl.
  - split; [reflexivity|]. destruct w; [exact Hws|].
    constructor; [split; [discriminate | exact Hw] | exact Hws].
  - rewrite E, Hw. split; [reflexivity | exact Hws].
Qed.

Lemma split_words (s : string) : Forall (fun w => w <> "" /\ no_space w) (split s).
Proof.
  unfold split. pose proof (split_go_words s) as [Hw Hws].
  destruct (split_go s) as [w ws]; simpl in *.
  destruct w; [exact Hws|]. constructor; [split; [discriminate | exact Hw] | exact Hws].
Qed.

Lemma spaced_word (w rest : string) (st : nat) :
  w <> "" -> no_space w -> spaced_from st (w ++ rest) = spaced_from 1 rest.
Proof.
  unfold no_space. revert st; induction w as [|c w IH]; intros st Hne Hw; [congruence|].
  simpl in *. apply andb_prop in Hw as [Hc Hw]. apply negb_true_iff in Hc. rewrite Hc.
  destruct w; [reflexivity|]. apply IH; [discriminate | exact Hw].
Qed.

Lemma spaced_join (ws : list string) (st : nat) :
  Forall (fun w => w <> "" /\ no_space w) ws -> ws <> [] ->
  spaced_from st (join_with " " ws) = true.
Proof.
  revert st; induction ws as [|w ws IH]; intros st Hf Hne; [congruence|].
  inversion Hf as [|? ? [Hw1 Hw2] Hf']; subst.
  destruct ws as [|w2 ws].
  - simpl. rewrite <- (string_app_nil w), spaced_word by assumption. reflexivity.
  - change (join_with " " (w :: w2 :: ws)) with (w ++ " " ++ join_with " " (w2 :: ws)).
    rewrite spaced_word by assumption. simpl. apply IH; [exact Hf' | discriminate].
Qed.

Lemma spaced_normalized (text : string) : single_spaced (join_with " " (split text)) = true.
Proof.
  unfold single_spaced. destruct (split text) as [|w ws] eqn:E; [reflexivity|].
  rewrite <- E. apply spaced_join; [apply split_words | rewrite E; discriminate].
Qed.

Lemma spaced_prefix (a b : string) (c : ascii) (st : nat) :
  is_space c = false -> spaced_from st (a ++ String c b) = true ->
  spaced_from st (a ++ String c "") = true.
Proof.
  intros Hc. revert st; induction a as [|x a IH]; intros st H; simpl in *.
  - rewrite Hc in *. reflexivity.
  - destruct (is_space x).
    + apply andb_prop in H as [H1 H2]. rewrite H1. apply IH, H2.
    + apply IH, H.
Qed.

Lemma rstrip_spaced (s : string) (st : nat) : spaced_from st s = true -> rstrip s = s.
Proof.
  revert st; induction s as [|c s IH]; intros st H; simpl in *; [reflexivity|].
  assert (Hs : spaced_from (if is_space c then 2 else 1) s = true)
    by (destruct (is_space c); [apply andb_prop in H as [_ H] |]; exact H).
  rewrite (IH _ Hs). destruct s as [|c' s'].
  - destruct (is_space c) eqn:E; [|reflexivity].
    simpl in Hs. discriminate.
  - reflexivity.
Qed.

Lemma strip_spaced (s : string) : single_spaced s = true -> strip s = s.
Proof.
  unfold single_spaced, strip. intros H.
  assert (Hl : lstrip s = s).
  { destruct s as [|c s]; [reflexivity|]. simpl in *.
    destruct (is_space c); [discriminate | reflexivity]. }
  rewrite Hl. exact (rstrip_spaced _ _ H).
Qed.

Lemma split_on_go_join (c : ascii) (s : string) :
  join_with (String c "") (fst (split_on_go c s) :: snd (split_on_go c s)) = s.
Proof.
  induction s as [|x s IH]; simpl; [reflexivity|].
  destruct (split_on_go c s) as [w ws]; simpl in *.
  destruct (Ascii.eqb x c) eqn:E; simpl.
  - apply Ascii.eqb_eq in E. rewrite E, IH. reflexivity.
  - destruct ws; simpl in *; rewrite IH; reflexivity.
Qed.

(** [sep.join(s.split(sep))] gives back [s]. *)
Lemma split_on_join (c : ascii) (s : string) : join_with (String c "") (split_on c s) = s.
Proof.
  unfold split_on. pose proof (split_on_go_join c s).
  destruct (split_on_go c s). exact H.
Qed.

Lemma join_with_snoc (sep : string) (l : list string) (y : string) :
  l <> [] -> join_with sep (app l [y]) = join_with sep l ++ sep ++ y.
Proof.
  induction l as [|x l IH]; intros Hne; [congruence|].
  destruct l as [|x2 l]; [reflexivity|].
  change (join_with sep (app (x :: x2 :: l) [y]))
    with (x ++ sep ++ join_with sep (app (x2 :: l) [y])).
  rewrite IH by discriminate.
  change (join_with sep (x :: x2 :: l)) with (x ++ sep ++ join_with sep (x2 :: l)).
  rewrite !string_app_assoc. reflexivity.
Qed.

Lemma clean_text_cases (text : string) :
  let t1 := join_with " " (split text) in
  let l := split_on "."%char t1 in
  single_spaced t1 = true /\
  (clean_cond t1 = false /\ clean_text text = t1
   \/ clean_cond t1 = true
      /\ clean_text text = join_with "." (removelast l) ++ "."
      /\ single_spaced (join_with "." (removelast l) ++ ".") = true
      /\ t1 = (join_with "." (removelast l) ++ ".") ++ last l ""
      /\ String.length (strip (last l "")) < 10).
Proof.
  intros t1 l. unfold clean_text. fold t1. fold l.
  pose proof (spaced_normalized text) as Ht1. fold t1 in Ht1.
  split; [exact Ht1|].
  unfold clean_cond; fold l.
  destruct ((1 <? length l) && (String.length (strip (last l "")) <? 10)) eqn:E.
  - right. apply andb_prop in E as [E1 E2].
    apply Nat.ltb_lt in E1. apply Nat.ltb_lt in E2.
    assert (Hl : l <> []) by (destruct l; simpl in E1; [lia | discriminate]).
    assert (Hr : removelast l <> []).
    { destruct l as [|x [|y l']]; simpl in E1; try lia. simpl. discriminate. }
    assert (Et : t1 = (join_with "." (removelast l) ++ ".") ++ last l "").
    { rewrite <- string_app_assoc, <- join_with_snoc by exact Hr.
      rewrite <- app_removelast_last by exact Hl. symmetry. apply split_on_join. }
    assert (Hs : single_spaced (join_with "." (removelast l) ++ ".") = true).
    { unfold single_spaced. apply (spaced_prefix _ (last l "") _ 0); [reflexivity|].
      replace (join_with "." (removelast l) ++ String "."%char (last l "")) with t1;
        [exact Ht1 | rewrite Et, <- string_app_assoc; reflexivity]. }
    rewrite (strip_spaced _ Hs). auto.
  - left. rewrite (strip_spaced _ Ht1). auto.
Qed.

(** The output of [_clean_text] is single-spaced; it is the text with its
    whitespace runs collapsed, or a prefix of it ending at a period that
    drops a last fragment of fewer than ten non-blank characters. *)
Theorem clean_text_shape (text : string) :
  let t1 := join_with " " (split text) in
  single_spaced (clean_text text) = true
  /\ (clean_text text = t1
      \/ exists pre rest, clean_text text = pre ++ "."
                          /\ t1 = clean_text text ++ rest
                          /\ String.length (strip rest) < 10).
Proof.
  intros t1. destruct (clean_text_cases text) as [Ht1 [[_ E] | [_ [E [Hs [Et Hr]]]]]];
    fold t1 in Ht1, E |- *.
  - rewrite E. split; [exact Ht1 | left; reflexivity].
  - rewrite E. split; [exact Hs|]. right.
    eexists; eexists. split; [reflexivity|]. split; [exact Et | exact Hr].
Qed.

Lemma join_with_cons (w : string) (ws : list string) :
  join_with " " (w :: ws) = w ++ words_tail ws.
Proof. destruct ws; simpl; [symmetry; apply string_app_nil | reflexivity]. Qed.

Lemma spaced_split_go (s : string) (st : nat) :
  spaced_from st s = true ->
  s = fst (split_go s) ++ words_tail (snd (split_go s))
  /\ (st <> 1 -> fst (split_go s) = "" -> s = "").
Proof.
  revert st; induction s as [|c s IH]; intros st H; simpl in *; [split; reflexivity|].
  destruct (split_go s) as [w ws] eqn:Eg; simpl in *.
  destruct (is_space c) eqn:Ec.
  - apply andb_prop in H as [H1 H2]. apply andb_prop in H1 as [H0 Hc].
    apply Nat.eqb_eq in H0. apply Ascii.eqb_eq in Hc. subst.
    destruct (IH _ H2) as [Es Hw].
    split; [|intros Hne; lia].
    destruct w as [|x w'].
    + rewrite (Hw ltac:(discriminate) eq_refl) in H2. discriminate.
    + rewrite Es. simpl. destruct ws; simpl; [rewrite string_app_nil|]; reflexivity.
  - destruct (IH _ H) as [Es _]. split; [simpl; f_equal; exact Es | discriminate].
Qed.

(** Single-spaced text is its own whitespace normalization. *)
Lemma spaced_normal (s : string) :
  single_spaced s = true -> join_with " " (split s) = s.
Proof.
  unfold single_spaced, split. intros H.
  destruct (spaced_split_go s 0 H) as [Es Hw].
  destruct (split_go s) as [w ws]; simpl in *.
  destruct w as [|x w'].
  - rewrite (Hw ltac:(discriminate) eq_refl) in Es |- *.
    destruct ws; [reflexivity | discriminate].
  - rewrite join_with_cons. symmetry. exact Es.
Qed.

Lemma split_on_cons (c x : ascii) (t : string) :
  split_on c (String x t)
  = if Ascii.eqb x c then "" :: split_on c t
    else match split_on c t with w :: ws => String x w :: ws | [] => [] end.
Proof.
  unfold split_on. simpl. destruct (split_on_go c t). destruct (Ascii.eqb x c); reflexivity.
Qed.

Lemma split_on_snoc (c : ascii) (s : string) :
  split_on c (s ++ String c "") = app (split_on c s) [""].
Proof.
  induction s as [|x s IH].
  - simpl. rewrite split_on_cons, Ascii.eqb_refl. reflexivity.
  - simpl. rewrite !split_on_cons, IH.
    destruct (Ascii.eqb x c); [reflexivity|].
    unfold split_on at 1 2. destruct (split_on_go c s). reflexivity.
Qed.

(** Cleaning a cleaned text changes nothing. *)
Theorem clean_text_idempotent (text : string) :
  clean_text (clean_text text) = clean_text text.
Proof.
  destruct (clean_text_cases text) as [Ht1 [[Ec E] | [_ [E [Hs _]]]]]; rewrite E.
  - unfold clean_text at 1. rewrite (spaced_normal _ Ht1).
    unfold clean_cond in Ec. rewrite Ec. apply strip_spaced, Ht1.
  - set (pre := join_with "." (removelast (split_on "."%char (join_with " " (split text))))) in *.
    unfold clean_text at 1. rewrite (spaced_normal _ Hs).
    rewrite split_on_snoc, removelast_last, split_on_join, length_app, last_last.
    replace (1 <? length (split_on "."%char pre) + length [""]) with true
      by (symmetry; apply Nat.ltb_lt; unfold split_on; destruct (split_on_go _ _); simpl; lia).
    simpl. apply strip_spaced, Hs.
Qed.

Lemma Qle_div_iff (a b c : Q) : (0 < c)%Q -> (a <= b / c <-> a * c <= b)%Q.
Proof.
  intros Hc. split; [|apply Qle_shift_div_l, Hc].
  intros H. apply (Qmult_le_compat_r _ _ c) in H; [|apply Qlt_le_weak, Hc].
  assert (E : (b / c * c == b)%Q).
  { field. intros E. rewrite E in Hc. apply (Qlt_irrefl 0 Hc). }
  rewrite E in H. exact H.
Qed.

Lemma Qle_bool_percentage (k c t : nat) :
  0 < t ->
  Qle_bool (inject_Z (Z.of_nat k)) (percentage_of c t) = (k * t <=? 100 * c).
Proof.
  intros Ht.
  assert (Hq : (0 < inject_Z (Z.of_nat t))%Q).
  { change 0%Q with (inject_Z 0). rewrite <- Zlt_Qlt. lia. }
  destruct (Qle_bool _ _) eqn:E; symmetry.
  - apply Qle_bool_iff in E. apply Nat.leb_le.
    rewrite percentage_of_pos in E by exact Ht.
    apply (Qle_div_iff _ _ _ Hq) in E.
    rewrite <- inject_Z_mult in E.
    change 100%Q with (inject_Z 100) in E. rewrite <- inject_Z_mult in E.
    rewrite <- Zle_Qle in E. lia.
  - apply Nat.leb_gt. destruct (Nat.le_gt_cases (k * t) (100 * c)) as [H|H]; [|exact H].
    exfalso. apply Bool.not_true_iff_false in E. apply E, Qle_bool_iff.
    rewrite percentage_of_pos by exact Ht.
    apply Qle_shift_div_l; [exact Hq|].
    rewrite <- inject_Z_mult. change 100%Q with (inject_Z 100).
    rewrite <- inject_Z_mult, <- Zle_Qle. lia.
Qed.

(** The banner of the results page: green from 80%, orange from 60%, red
    below, that is [5 * correct] against [4 * total] and [3 * total]. *)
Theorem banner_thresholds (q : QuizData) (answers : dict)
  (Hq : entries q <> []) :
  let r := score q answers in
  banner (rep_percentage r)
  = if 4 * rep_total r <=? 5 * rep_correct r then Green
    else if 3 * rep_total r <=? 5 * rep_correct r then Orange
    else Red.
Proof.
  intros r.
  assert (Ht : 0 < rep_total r).
  { unfold r. rewrite score_entries. simpl. destruct (entries q); [congruence | simpl; lia]. }
  assert (Hp : rep_percentage r = percentage_of (rep_correct r) (rep_total r))
    by (unfold r; rewrite score_entries; reflexivity).
  unfold banner. rewrite Hp.
  change 80%Q with (inject_Z (Z.of_nat 80)). change 60%Q with (inject_Z (Z.of_nat 60)).
  rewrite !Qle_bool_percentage by exact Ht.
  replace (80 * rep_total r <=? 100 * rep_correct r)
    with (4 * rep_total r <=? 5 * rep_correct r)
    by (destruct (Nat.leb_spec (4 * rep_total r) (5 * rep_correct r));
        destruct (Nat.leb_spec (80 * rep_total r) (100 * rep_correct r)); lia).
  replace (60 * rep_total r <=? 100 * rep_correct r)
    with (3 * rep_total r <=? 5 * rep_correct r)
    by (destruct (Nat.leb_spec (3 * rep_total r) (5 * rep_correct r));
        destruct (Nat.leb_spec (60 * rep_total r) (100 * rep_correct r)); lia).
  reflexivity.
Qed.

Theorem banner_thresholds_witness :
  entries create_fallback_quiz_data <> []
  /\ banner (rep_percentage (score create_fallback_quiz_data [])) = Red.
Proof.
  assert (H : entries create_fallback_quiz_data <> []) by discriminate.
  split; [exact H|].
  rewrite (banner_thresholds create_fallback_quiz_data [] H). vm_compute. reflexivity.
Defined.

(** ** The review list *)

Lemma short_missed_ok (u e : string) : short_missed u e = negb (short_ok u e).
Proof.
  unfold short_missed, short_ok.
  set (x := inject_Z (Z.of_nat (keyword_matches _ _))).
  set (y := (inject_Z (Z.of_nat (length (split (lower e)))) * (1 # 2))%Q).
  destruct (Qle_bool y x) eqn:E.
  - apply Qle_bool_iff in E.
    destruct (Qcompare x y) eqn:C; try reflexivity.
    apply Qlt_alt in C. exfalso. apply (Qlt_not_le x y C E).
  - destruct (Qcompare x y) eqn:C; try reflexivity; exfalso;
      apply Bool.not_true_iff_false in E; apply E, Qle_bool_iff.
    + apply Qeq_alt in C. rewrite C. apply Qle_refl.
    + apply Qgt_alt in C. apply Qlt_le_weak, C.
Qed.

Lemma review_mcqs_entries (a : dict) (i : nat) (l : list MCQ) :
  review_mcqs a i l = map review_of (filter (fun e => negb (entry_ok a e)) (mcq_entries i l)).
Proof.
  revert i; induction l as [|m l IH]; intros i; simpl; [reflexivity|].
  unfold entry_ok; cbn [e_key e_item].
  destruct (String.eqb (get a (mcq_key i) "") (mcq_correct m)); simpl; rewrite IH; reflexivity.
Qed.

Lemma review_blanks_entries (a : dict) (n i : nat) (l : list Blank) :
  review_blanks a n i l
  = map review_of (filter (fun e => negb (entry_ok a e)) (blank_entries n i l)).
Proof.
  revert i; induction l as [|b l IH]; intros i; simpl; [reflexivity|].
  unfold entry_ok; cbn [e_key e_item]. rewrite <- negb_orb.
  destruct (_ || _); simpl; rewrite IH; reflexivity.
Qed.

Lemma review_shorts_entries (a : dict) (base i : nat) (l : list ShortQ) :
  review_shorts a base i l
  = map review_of (filter (fun e => negb (entry_ok a e)) (short_entries base i l)).
Proof.
  revert i; induction l as [|s l IH]; intros i; simpl; [reflexivity|].
  unfold entry_ok; cbn [e_key e_item]. rewrite short_missed_ok.
  destruct (short_ok _ _); simpl; rewrite IH; reflexivity.
Qed.

(** The "Correct Answers" review lists exactly the items the score counted
    wrong, under the numbers of their weak-area entries; so it has
    [total - correct] items. *)
Theorem review_matches_score (q : QuizData) (answers : dict) :
  review_items q answers
  = map review_of (filter (fun e => negb (entry_ok answers e)) (entries q))
  /\ length (review_items q answers)
     = rep_total (score q answers) - rep_correct (score q answers).
Proof.
  assert (E : review_items q answers
              = map review_of (filter (fun e => negb (entry_ok answers e)) (entries q))).
  { unfold review_items. rewrite score_entries. cbn [rep_missed rep_total].
    destruct (filter (fun e => negb (entry_ok answers e)) (entries q)) as [|e0 l0] eqn:Ef;
      [reflexivity|]. simpl list_truthy. cbv iota beta. rewrite <- Ef.
    unfold entries. rewrite !filter_app, !map_app.
    rewrite review_mcqs_entries, review_blanks_entries. f_equal. f_equal.
    destruct (short_answer q) as [|s|l] eqn:Es; simpl.
    - reflexivity.
    - rewrite !length_app, length_mcq_entries, length_blank_entries, short_missed_ok.
      unfold entry_ok; cbn [e_key e_item e_num length].
      replace (length (mcq_questions q) + (length (fill_blanks q) + 1))
        with (length (mcq_questions q) + length (fill_blanks q) + 1) by lia.
      destruct (short_ok _ _); reflexivity.
    - destruct l as [|s l]; [reflexivity|]. apply review_shorts_entries. }
  split; [exact E|].
  rewrite E, length_map, score_entries. cbn [rep_total rep_correct].
  pose proof (filter_split_length (entry_ok answers) (entries q)). lia.
Qed.
